(** * Notification context of the V2 micro frontend

    A shallow embedding of [packages/module-v2/src/Notification.tsx]:
    the [NotificationProvider] keeps the list of active notifications in a
    React state cell and forwards content notifications to the external
    KoliBri toaster.  The state cell and the calls made on the toaster are
    threaded through a small state monad; the single [await] of
    [addNotification] is modelled by a continuation that is resumed with
    the value the toaster's promise resolves to. *)

From Stdlib Require Import String List Bool Arith Lia NArith DecimalString.
Import ListNotations.
Local Open Scope string_scope.
Local Open Scope list_scope.

(** ** Data model *)

(** [type: 'info' | 'success' | 'warning' | 'error'] *)
Inductive Severity : Type := info | success | warning | error.

(** [type: 401 | 403] *)
Inductive StatusCode : Type := code401 | code403.

(** The [type] field as read from an arbitrary member of the union. *)
Inductive TypeTag : Type :=
| Sev (s : Severity)
| Code (c : StatusCode).

(** [ReactNode]: the code only asks whether [typeof message] is ['string'];
    any other node is kept as an opaque token. *)
Inductive ReactNode : Type :=
| TextNode (s : string)
| ElementNode (key : nat).

(** [NotificationState]: the tagged union of the source.  The status-code
    shape has [headline], [message] and [id] of type [never]. *)
Inductive NotificationState : Type :=
| Content (type : Severity) (headline : string) (message : ReactNode)
          (id : option string)
| StatusOnly (type : StatusCode).

(** A close callback handed out by the toaster, identified by a token. *)
Definition CloseFn : Type := nat.

(** [NotificationState & { closeFn?: () => void }] *)
Record Entry : Type := mkEntry {
  state : NotificationState;
  closeFn : option CloseFn
}.

(** [n.type] *)
Definition type_of (n : NotificationState) : TypeTag :=
  match n with
  | Content ty _ _ _ => Sev ty
  | StatusOnly c => Code c
  end.

(** [n.id]; [undefined] on a status-code notification. *)
Definition id_of (n : NotificationState) : option string :=
  match n with
  | Content _ _ _ i => i
  | StatusOnly _ => None
  end.

Definition entry_type (e : Entry) : TypeTag := type_of (state e).
Definition entry_id (e : Entry) : option string := id_of (state e).

(** [o.type === 401], [o.type === 403] *)
Definition is401 (t : TypeTag) : bool :=
  match t with Code code401 => true | _ => false end.
Definition is403 (t : TypeTag) : bool :=
  match t with Code code403 => true | _ => false end.

(** [a === b] on values of type [string | undefined]. *)
Definition id_eqb (a b : option string) : bool :=
  match a, b with
  | Some x, Some y => String.eqb x y
  | None, None => true
  | _, _ => false
  end.

(** JavaScript truthiness of a [string | undefined]: [undefined] and the
    empty string are falsy. *)
Definition truthy (a : option string) : bool :=
  match a with
  | None => false
  | Some EmptyString => false
  | Some (String _ _) => true
  end.

(** ** The external toaster *)

(** The descriptor passed to [toaster.enqueue]. *)
Record Toast : Type := mkToast {
  toast_type : Severity;
  label : string;
  description : option string;
  render : option ReactNode
}.

(** Calls observed on the outside world, oldest first. *)
Inductive Event : Type :=
| Enqueue (t : Toast)
| CloseAll
| Close (h : CloseFn).

(** ** Effects *)

(** The React state cell of [useState] and the trace of toaster calls. *)
Record World : Type := mkWorld {
  hook_state : list Entry;
  trace : list Event
}.

Definition M (A : Type) : Type := World -> A * World.

Definition ret {A : Type} (a : A) : M A := fun w => (a, w).

Definition bind {A B : Type} (m : M A) (f : A -> M B) : M B :=
  fun w => let (a, w') := m w in f a w'.

Notation "x <- m ;; k" := (bind m (fun x => k))
  (at level 61, m at next level, right associativity).
Notation "m ;; k" := (bind m (fun _ => k))
  (at level 61, right associativity).

Definition exec {A : Type} (m : M A) (w : World) : World := snd (m w).
Definition result {A : Type} (m : M A) (w : World) : A := fst (m w).

(** [setNotifications(updater)]: the updater receives the state cell as it
    is when the update is applied. *)
Definition setNotifications (f : list Entry -> list Entry) : M unit :=
  fun w => (tt, mkWorld (f (hook_state w)) (trace w)).

Definition emit (e : Event) : M unit :=
  fun w => (tt, mkWorld (hook_state w) (trace w ++ [e])).

(** [f?.()] for an optional close callback. *)
Definition invoke (f : option CloseFn) : list Event :=
  match f with
  | Some h => [Close h]
  | None => []
  end.

Definition call_optional (f : option CloseFn) : M unit :=
  fun w => (tt, mkWorld (hook_state w) (trace w ++ invoke f)).

(** [notifications.find(p)?.closeFn] *)
Definition found_closeFn (found : option Entry) : option CloseFn :=
  match found with
  | Some e => closeFn e
  | None => None
  end.

(** The value of an [async] function: either it has returned, or it is
    suspended on [await toaster.enqueue(..)] and continues with the close
    callback the toaster resolves to. *)
Inductive Promise (A : Type) : Type :=
| Resolved (a : A)
| AwaitEnqueue (k : option CloseFn -> M A).
Arguments Resolved {A} a.
Arguments AwaitEnqueue {A} k.

(** ** The provider *)

(** [useState([])] *)
Definition initial : World := mkWorld [] [].

(** Line 85: [(o) => o.type !== 401 && o.type !== 403] *)
Definition not_status_code (o : Entry) : bool :=
  negb (is401 (entry_type o)) && negb (is403 (entry_type o)).

(** Lines 93-102: the descriptor built for the toaster. *)
Definition toast_of (ty : Severity) (headline : string) (message : ReactNode)
  : Toast :=
  {| toast_type := ty;
     label := headline;
     description := match message with
                    | TextNode s => Some s
                    | ElementNode _ => None
                    end;
     render := match message with
               | TextNode _ => None
               | ElementNode _ => Some message
               end |}.

(** Lines 83-111.  [notifications] is the list captured by the closure of
    [useMemo], [old] is the state cell at the time an update is applied. *)
Definition addNotification (notifications : list Entry)
  (notification : NotificationState) : M (Promise (option CloseFn)) :=
  match notification with
  | StatusOnly ty =>
      setNotifications (fun old =>
        filter not_status_code old ++ [mkEntry (StatusOnly ty) None]) ;;
      ret (Resolved None)
  | Content ty headline message id =>
      (if truthy id && existsb (fun n => id_eqb (entry_id n) id) notifications
       then call_optional
              (found_closeFn
                 (find (fun n => id_eqb (entry_id n) id) notifications))
       else ret tt) ;;
      emit (Enqueue (toast_of ty headline message)) ;;
      ret (AwaitEnqueue (fun closeFn =>
        setNotifications (fun old =>
          let updatedNotifications :=
            filter (fun n => negb (id_eqb (entry_id n) id)) old in
          updatedNotifications ++ [mkEntry notification closeFn]) ;;
        ret closeFn))
  end.

(** Lines 112-118. *)
Definition closeNotification (notifications : list Entry) (id : string)
  : M unit :=
  match find (fun n => id_eqb (entry_id n) (Some id)) notifications with
  | Some found =>
      call_optional (closeFn found) ;;
      setNotifications
        (filter (fun n => negb (id_eqb (entry_id n) (Some id))))
  | None => ret tt
  end.

(** Lines 119-122. *)
Definition resetNotifications : M unit :=
  emit CloseAll ;;
  setNotifications (fun _ => []).

(** Lines 128-131: the cleanup returned by the effect, run on unmount. *)
Definition teardown : M unit :=
  emit CloseAll ;;
  setNotifications (fun _ => []).

(** [NotificationContextProps] and the memoised [value] of the provider,
    rebuilt from the rendered [notifications]. *)
Record NotificationContextProps : Type := mkContext {
  notifications : list Entry;
  ctx_addNotification : NotificationState -> M (Promise (option CloseFn));
  ctx_closeNotification : string -> M unit;
  ctx_resetNotifications : M unit
}.

Definition value (rendered : list Entry) : NotificationContextProps :=
  {| notifications := rendered;
     ctx_addNotification := addNotification rendered;
     ctx_closeNotification := closeNotification rendered;
     ctx_resetNotifications := resetNotifications |}.

(** The context a component sees when the render is up to date. *)
Definition useNotifications (w : World) : NotificationContextProps :=
  value (hook_state w).

(** ** Vocabulary of the properties *)

(** An entry is a status-code notification (401 or 403). *)
Definition is_status (e : Entry) : bool :=
  match state e with
  | StatusOnly _ => true
  | Content _ _ _ _ => false
  end.

Definition has_code (c : StatusCode) (e : Entry) : bool :=
  match state e, c with
  | StatusOnly code401, code401 => true
  | StatusOnly code403, code403 => true
  | _, _ => false
  end.

(** The entries of a list that carry the identifier [i]. *)
Definition with_id (i : option string) (l : list Entry) : list Entry :=
  filter (fun e => id_eqb (entry_id e) i) l.

(** The identifier [i] occurs on some entry of the list. *)
Definition occurs (i : option string) (l : list Entry) : Prop :=
  exists e, In e l /\ entry_id e = i.

(** The identifiers that are present, in list order. *)
Fixpoint present_ids (l : list Entry) : list string :=
  match l with
  | [] => []
  | e :: l' =>
      match entry_id e with
      | Some i => i :: present_ids l'
      | None => present_ids l'
      end
  end.

(** At most one 401 and at most one 403 entry. *)
Definition one_status_per_kind (l : list Entry) : Prop :=
  length (filter (has_code code401) l) <= 1 /\
  length (filter (has_code code403) l) <= 1.

(** Every present identifier occurs on at most one entry. *)
Definition unique_ids (l : list Entry) : Prop := NoDup (present_ids l).

(** How often the toaster was asked to close everything. *)
Definition closeAll_calls (t : list Event) : nat :=
  length (filter (fun e => match e with CloseAll => true | _ => false end) t).

(** An operation keeps a predicate on the state cell. *)
Definition preserves {A : Type} (P : list Entry -> Prop) (m : M A) : Prop :=
  forall w, P (hook_state w) -> P (hook_state (exec m w)).

(** The same for an [async] operation: the part before the [await] keeps
    it, and so does the continuation, in whatever state it is resumed. *)
Definition preserves_async {A : Type} (P : list Entry -> Prop)
  (m : M (Promise A)) : Prop :=
  forall w, P (hook_state w) ->
    P (hook_state (exec m w)) /\
    forall k, result m w = AwaitEnqueue k ->
      forall c, preserves P (k c).

(** A predicate kept by every operation of the context. *)
Definition kept_by_all_operations (P : list Entry -> Prop) : Prop :=
  (forall cur n, preserves_async P (addNotification cur n)) /\
  (forall cur id, preserves P (closeNotification cur id)) /\
  preserves P resetNotifications /\
  preserves P teardown.

(** One move of the provider.  An operation may be called through a
    context value of any render ([cur]), and the continuation of any
    earlier [addNotification] may resume with any value of the toaster. *)
Inductive step (w : World) : World -> Prop :=
| step_add cur n :
    step w (exec (addNotification cur n) w)
| step_resolve cur n w0 k c :
    result (addNotification cur n) w0 = AwaitEnqueue k ->
    step w (exec (k c) w)
| step_close cur id :
    step w (exec (closeNotification cur id) w)
| step_reset :
    step w (exec resetNotifications w)
| step_teardown :
    step w (exec teardown w).

Inductive reachable : World -> Prop :=
| reachable_initial : reachable initial
| reachable_step w w' : reachable w -> step w w' -> reachable w'.

(** An [async] call whose [await] is answered at once with [c], nothing
    else running in between. *)
Definition settle {A : Type} (m : M (Promise A)) (c : option CloseFn) : M A :=
  p <- m ;;
  match p with
  | Resolved a => ret a
  | AwaitEnqueue k => k c
  end.

(** How often the toaster was asked to enqueue, and how often a close
    callback was called. *)
Definition enqueue_calls (t : list Event) : nat :=
  length (filter (fun e => match e with Enqueue _ => true | _ => false end) t).

Definition close_calls (t : list Event) : nat :=
  length (filter (fun e => match e with Close _ => true | _ => false end) t).

(** A content entry that has no identifier. *)
Definition is_anonymous_content (e : Entry) : bool :=
  match state e with
  | Content _ _ _ None => true
  | _ => false
  end.

(** A status-code entry never carries a close callback. *)
Definition status_without_closeFn (l : list Entry) : Prop :=
  forall e, In e l -> is_status e = true -> closeFn e = None.

(** ** The demo component ([Module.tsx]) *)

(** The state of [App] under its provider: the provider's world and the
    [counter] cell of [useState(0)]. *)
Record AppWorld : Type := mkApp {
  provider : World;
  counter_cell : N
}.

(** [counter + 1] on a JavaScript number that holds a natural number: exact
    below 2^53, and 2^53 + 1 rounds back to 2^53.  (Faithful for values up
    to 2^53, which are the only ones counting up from 0 reaches.) *)
Definition plus_one (counter : N) : N :=
  if (counter <? 2 ^ 53)%N then (counter + 1)%N else counter.

(** [`${counter}`]: the decimal digits of a natural number. *)
Definition decimal (counter : N) : string :=
  NilEmpty.string_of_uint (N.to_uint counter).

(** Line 26: the notification built by the click handler. *)
Definition click_notification (counter : N) : NotificationState :=
  Content info "KolButton clicked"
    (TextNode (String.append "KolButton "
                 (String.append (decimal counter) " clicked")))
    None.

(** Lines 25-28: [onClick], closed over the [counter] and the context of
    the render it belongs to.  The promise of [addNotification] is dropped
    by the handler; it is returned here so that its continuation can run
    later. *)
Definition onClick (ctx : NotificationContextProps) (counter : N)
  (a : AppWorld) : Promise (option CloseFn) * AppWorld :=
  let (p, w') := ctx_addNotification ctx (click_notification counter)
                   (provider a) in
  (p, mkApp w' (plus_one counter)).

(** Mounting [NotificationProvider] and [App]. *)
Definition mounted : AppWorld := mkApp initial 0%N.

(** A click on the button of the up-to-date render, whose enqueue is
    answered with [c] before anything else happens. *)
Definition settled_click (c : option CloseFn) (a : AppWorld) : AppWorld :=
  let (p, a') := onClick (useNotifications (provider a)) (counter_cell a) a in
  match p with
  | Resolved _ => a'
  | AwaitEnqueue k => mkApp (exec (k c) (provider a')) (counter_cell a')
  end.

Definition settled_clicks (cs : list (option CloseFn)) (a : AppWorld)
  : AppWorld :=
  fold_left (fun a' c => settled_click c a') cs a.

(** ** Basic facts *)

Lemma id_eqb_eq (a b : option string) : id_eqb a b = true <-> a = b.
Proof.
  destruct a as [x|], b as [y|]; simpl; split; intros H;
    try discriminate; try reflexivity.
  - apply String.eqb_eq in H. now subst.
  - injection H as ->. apply String.eqb_refl.
Qed.

Lemma id_eqb_refl (a : option string) : id_eqb a a = true.
Proof. now apply id_eqb_eq. Qed.

Lemma id_eqb_neq (a b : option string) : id_eqb a b = false <-> a <> b.
Proof.
  rewrite <- id_eqb_eq. destruct (id_eqb a b); split; intros H;
    try discriminate; try reflexivity; easy.
Qed.

Lemma not_status_code_spec (o : Entry) :
  not_status_code o = negb (is_status o).
Proof.
  unfold not_status_code, is_status, entry_type.
  destruct (state o) as [ty h m i | []]; reflexivity.
Qed.

Lemma filter_filter_negb {A : Type} (p : A -> bool) (l : list A) :
  filter p (filter (fun x => negb (p x)) l) = [].
Proof.
  induction l as [|a l IH]; simpl; [reflexivity|].
  destruct (p a) eqn:E; simpl; [exact IH|].
  now rewrite E.
Qed.

Lemma filter_all_true {A : Type} (p : A -> bool) (l : list A) :
  (forall x, In x l -> p x = true) -> filter p l = l.
Proof.
  induction l as [|a l IH]; simpl; intros H; [reflexivity|].
  rewrite (H a (or_introl eq_refl)). f_equal. apply IH.
  intros x Hx. apply H. now right.
Qed.

Lemma filter_length_le {A : Type} (p q : A -> bool) (l : list A) :
  length (filter p (filter q l)) <= length (filter p l).
Proof.
  induction l as [|a l IH]; simpl; [lia|].
  destruct (q a), (p a) eqn:E; simpl; rewrite ?E; simpl; lia.
Qed.

Lemma find_none_not_occurs (i : option string) (l : list Entry) :
  find (fun n => id_eqb (entry_id n) i) l = None <-> ~ occurs i l.
Proof.
  split.
  - intros H [e [Hin He]].
    pose proof (find_none _ _ H e Hin) as Hf. simpl in Hf.
    rewrite <- He, id_eqb_refl in Hf. discriminate.
  - intros H. destruct (find _ l) as [e|] eqn:E; [|reflexivity].
    apply find_some in E as [Hin He]. apply id_eqb_eq in He.
    exfalso. apply H. now exists e.
Qed.

Lemma existsb_occurs (i : option string) (l : list Entry) :
  existsb (fun n => id_eqb (entry_id n) i) l = true <-> occurs i l.
Proof.
  rewrite existsb_exists. unfold occurs.
  split; intros [e [Hin He]]; exists e; split; trivial; now apply id_eqb_eq.
Qed.

Lemma present_ids_app (l1 l2 : list Entry) :
  present_ids (l1 ++ l2) = present_ids l1 ++ present_ids l2.
Proof.
  induction l1 as [|e l1 IH]; simpl; [reflexivity|].
  destruct (entry_id e); simpl; now rewrite IH.
Qed.

Lemma present_ids_In (i : string) (l : list Entry) :
  In i (present_ids l) <-> occurs (Some i) l.
Proof.
  induction l as [|e l IH]; simpl.
  - split; [easy | intros [e [[] _]]].
  - destruct (entry_id e) as [j|] eqn:E; simpl; rewrite ?IH; split.
    + intros [Hj | [x [Hx Hi]]].
      * exists e. split; [now left | congruence].
      * exists x. split; [now right | exact Hi].
    + intros [x [[Hx | Hx] Hi]].
      * left. congruence.
      * right. now exists x.
    + intros [x [Hx Hi]]. exists x. split; [now right | exact Hi].
    + intros [x [[Hx | Hx] Hi]]; [congruence | now exists x].
Qed.

Lemma present_ids_filter_NoDup (p : Entry -> bool) (l : list Entry) :
  NoDup (present_ids l) -> NoDup (present_ids (filter p l)).
Proof.
  induction l as [|e l IH]; simpl; intros H; [constructor|].
  destruct (entry_id e) as [j|] eqn:E.
  - inversion H as [|? ? Hnin Hnd]; subst.
    destruct (p e); simpl; rewrite ?E; [|now apply IH].
    constructor; [|now apply IH].
    rewrite present_ids_In in *. intros [x [Hx Hi]].
    apply Hnin. exists x. apply filter_In in Hx as [Hx _]. auto.
  - destruct (p e); simpl; rewrite ?E; now apply IH.
Qed.

Lemma with_id_not_occurs (i : option string) (l : list Entry) :
  ~ occurs i l -> filter (fun n => negb (id_eqb (entry_id n) i)) l = l.
Proof.
  intros H. apply filter_all_true. intros x Hx.
  apply negb_true_iff, id_eqb_neq. intros Hi. apply H. now exists x.
Qed.

(** The part of [addNotification] that runs before the [await], for a
    content notification. *)
Lemma addNotification_content cur ty h m i w :
  exists k,
    addNotification cur (Content ty h m i) w =
      (AwaitEnqueue k,
       mkWorld (hook_state w)
         ((trace w ++
           (if truthy i && existsb (fun n => id_eqb (entry_id n) i) cur
            then invoke (found_closeFn
                           (find (fun n => id_eqb (entry_id n) i) cur))
            else [])) ++ [Enqueue (toast_of ty h m)])) /\
    forall c w2,
      k c w2 =
        (c, mkWorld
              (filter (fun n => negb (id_eqb (entry_id n) i)) (hook_state w2)
                 ++ [mkEntry (Content ty h m i) c])
              (trace w2)).
Proof.
  eexists. split.
  - unfold addNotification, bind, emit, ret.
    destruct (truthy i && existsb _ cur); simpl;
      rewrite ?app_nil_r; destruct w; reflexivity.
  - intros c w2. reflexivity.
Qed.

Lemma find_unique (cur : list Entry) (i : option string) (prior e : Entry) :
  unique_ids cur ->
  find (fun n => id_eqb (entry_id n) i) cur = Some prior ->
  In e cur -> entry_id e = i -> i <> None -> e = prior.
Proof.
  unfold unique_ids. intros Hnd Hfind Hin Hid Hi.
  destruct i as [j|]; [clear Hi | contradiction].
  induction cur as [|a l IH]; simpl in *; [discriminate|].
  destruct (id_eqb (entry_id a) (Some j)) eqn:Ea.
  - injection Hfind as <-. apply id_eqb_eq in Ea. rewrite Ea in Hnd.
    destruct Hin as [-> | Hin]; [reflexivity|].
    inversion Hnd as [|? ? Hnin _]; subst. exfalso. apply Hnin.
    apply present_ids_In. now exists e.
  - apply id_eqb_neq in Ea. destruct Hin as [-> | Hin]; [contradiction|].
    apply IH; trivial.
    destruct (entry_id a); [now inversion Hnd | exact Hnd].
Qed.

(** When the identifier of the new notification is falsy (absent, or the
    empty string) the guard on line 89 fails, and the part before the
    [await] makes one call only, the [enqueue]. *)
Lemma addNotification_falsy_id cur ty h m i w :
  truthy i = false ->
  trace (exec (addNotification cur (Content ty h m i)) w) =
    trace w ++ [Enqueue (toast_of ty h m)].
Proof.
  intros Hi.
  destruct (addNotification_content cur ty h m i w) as [k [Hk _]].
  unfold exec. rewrite Hk. cbn [snd trace]. rewrite Hi. simpl.
  now rewrite app_nil_r.
Qed.

(** Only a content notification suspends, and its continuation does not
    depend on the state in which the call was made. *)
Lemma suspends_on_content cur n w0 k :
  result (addNotification cur n) w0 = AwaitEnqueue k ->
  exists ty h m i, n = Content ty h m i.
Proof.
  destruct n as [ty h m i | ty]; [now exists ty, h, m, i|].
  intros H. discriminate H.
Qed.

Lemma continuation_total cur ty h m i w0 k :
  result (addNotification cur (Content ty h m i)) w0 = AwaitEnqueue k ->
  forall w, result (addNotification cur (Content ty h m i)) w = AwaitEnqueue k.
Proof.
  unfold result, addNotification, bind, emit, ret.
  destruct (truthy i && existsb _ cur); simpl; intros Hk w; exact Hk.
Qed.

(** ** The claims *)

(** C1 as stated fails on the code, in three ways.  Each time the list
    holds an entry with close callback 7 and a notification with an equal
    identifier is added: (1) the identifier is the empty string, (2) there
    is no identifier on either, (3) the identifier is ["a"], but the call
    is made through the context of an earlier render, whose captured list
    is still empty.  In (1) and (2) the guard [notification.id && ..] is
    false, in (3) [notifications.some(..)] finds nothing in the captured
    list.  Each time the only call made before the [await] is the
    [enqueue]: the stored close callback is not invoked, neither then nor
    when the enqueue resolves, and the update still leaves the new entry
    as the only one with that identifier. *)
Lemma addNotification_skips_close :
  (let prior := mkEntry (Content error "E" (TextNode "boom") (Some EmptyString))
                  (Some 7) in
   let n := Content success "OK" (TextNode "done") (Some EmptyString) in
   let w := mkWorld [prior] [] in
   let add := ctx_addNotification (useNotifications w) n in
   In prior (notifications (useNotifications w)) /\
   id_eqb (entry_id prior) (id_of n) = true /\
   closeFn prior = Some 7 /\
   trace (exec add w) = [Enqueue (toast_of success "OK" (TextNode "done"))] /\
   ~ In (Close 7) (trace (exec add w)) /\
   exists k,
     result add w = AwaitEnqueue k /\
     exec (k (Some 8)) (exec add w) =
       mkWorld [mkEntry n (Some 8)]
         [Enqueue (toast_of success "OK" (TextNode "done"))]) /\
  (let prior := mkEntry (Content info "first" (TextNode "one") None)
                  (Some 7) in
   let n := Content info "second" (TextNode "two") None in
   let w := mkWorld [prior] [] in
   let add := ctx_addNotification (useNotifications w) n in
   In prior (notifications (useNotifications w)) /\
   id_eqb (entry_id prior) (id_of n) = true /\
   closeFn prior = Some 7 /\
   trace (exec add w) = [Enqueue (toast_of info "second" (TextNode "two"))] /\
   ~ In (Close 7) (trace (exec add w)) /\
   exists k,
     result add w = AwaitEnqueue k /\
     exec (k (Some 8)) (exec add w) =
       mkWorld [mkEntry n (Some 8)]
         [Enqueue (toast_of info "second" (TextNode "two"))]) /\
  (let prior := mkEntry (Content error "E" (TextNode "boom") (Some "a"))
                  (Some 7) in
   let n := Content success "OK" (TextNode "done") (Some "a") in
   let w := mkWorld [prior] [] in
   let add := ctx_addNotification (value []) n in
   In prior (hook_state w) /\
   id_eqb (entry_id prior) (id_of n) = true /\
   closeFn prior = Some 7 /\
   trace (exec add w) = [Enqueue (toast_of success "OK" (TextNode "done"))] /\
   ~ In (Close 7) (trace (exec add w)) /\
   exists k,
     result add w = AwaitEnqueue k /\
     exec (k (Some 8)) (exec add w) =
       mkWorld [mkEntry n (Some 8)]
         [Enqueue (toast_of success "OK" (TextNode "done"))]).
Proof.
  cbv zeta. split; [|split].
  - split; [now left|]. repeat (split; [reflexivity|]). split.
    + intros [H | []]. discriminate H.
    + eexists. split; reflexivity.
  - split; [now left|]. repeat (split; [reflexivity|]). split.
    + intros [H | []]. discriminate H.
    + eexists. split; reflexivity.
  - split; [now left|]. repeat (split; [reflexivity|]). split.
    + intros [H | []]. discriminate H.
    + eexists. split; reflexivity.
Qed.

(** C1, amended.  Every call with a content notification suspends on the
    enqueue without touching the list, and once the enqueue resolves, in
    whatever state, the only entry of the list with the identifier of the
    notification (a string, the empty string, or none) is the new one.
    If that identifier is a non-empty string that occurs in the list
    captured by the context the call is made through, then the close
    callback stored on the entry found for it (the only entry with that
    identifier when identifiers are unique) is called, and the toaster's
    [enqueue] comes after that call. *)
Theorem addNotification_replaces_prior :
  forall (cur : list Entry) (ty : Severity) (h : string) (m : ReactNode)
         (i : option string) (w : World),
    exists k,
      result (addNotification cur (Content ty h m i)) w = AwaitEnqueue k /\
      hook_state (exec (addNotification cur (Content ty h m i)) w) =
        hook_state w /\
      (forall (c : option CloseFn) (w2 : World),
         with_id i (hook_state (exec (k c) w2)) =
           [mkEntry (Content ty h m i) c]) /\
      (forall j : string,
         i = Some j -> j <> EmptyString -> occurs (Some j) cur ->
         exists prior,
           find (fun n => id_eqb (entry_id n) (Some j)) cur = Some prior /\
           In prior cur /\ entry_id prior = Some j /\
           (unique_ids cur ->
            forall e, In e cur -> entry_id e = Some j -> e = prior) /\
           trace (exec (addNotification cur (Content ty h m i)) w) =
             (trace w ++ invoke (closeFn prior))
               ++ [Enqueue (toast_of ty h m)] /\
           (forall f, closeFn prior = Some f ->
              trace (exec (addNotification cur (Content ty h m i)) w) =
                trace w ++ [Close f; Enqueue (toast_of ty h m)])).
Proof.
  intros cur ty h m i w.
  destruct (addNotification_content cur ty h m i w) as [k [Hk K]].
  exists k. split; [unfold result; now rewrite Hk|].
  split; [unfold exec; now rewrite Hk|]. split.
  - intros c w2. unfold exec. rewrite K. simpl. unfold with_id.
    rewrite filter_app, filter_filter_negb. simpl.
    unfold entry_id. simpl. now rewrite id_eqb_refl.
  - intros j -> Hj Hocc.
    assert (Ht : truthy (Some j) = true)
      by (destruct j; [contradiction | reflexivity]).
    destruct (find (fun n => id_eqb (entry_id n) (Some j)) cur)
      as [prior|] eqn:Hfind;
      [|apply find_none_not_occurs in Hfind; contradiction].
    exists prior. pose proof (find_some _ _ Hfind) as [Hin Hid].
    apply id_eqb_eq in Hid.
    assert (Htrace :
      trace (exec (addNotification cur (Content ty h m (Some j))) w) =
        (trace w ++ invoke (closeFn prior)) ++ [Enqueue (toast_of ty h m)]).
    { unfold exec. rewrite Hk. cbn [snd trace].
      rewrite Ht, (proj2 (existsb_occurs _ _) Hocc), ?Hfind. reflexivity. }
    split; [reflexivity|]. split; [exact Hin|]. split; [exact Hid|].
    split; [|split].
    + intros Hu e He Hide.
      apply (find_unique cur (Some j) prior e Hu Hfind He Hide). discriminate.
    + exact Htrace.
    + intros f Hf. rewrite Htrace, Hf. simpl. now rewrite <- app_assoc.
Qed.

Lemma addNotification_replaces_prior_witness :
  trace
    (exec (addNotification
             [mkEntry (Content error "E" (TextNode "boom") (Some "a")) (Some 7)]
             (Content success "OK" (TextNode "done") (Some "a")))
       (mkWorld
          [mkEntry (Content error "E" (TextNode "boom") (Some "a")) (Some 7)]
          []))
  = [Close 7; Enqueue (toast_of success "OK" (TextNode "done"))] /\
  exists k,
    result (addNotification
              [mkEntry (Content error "E" (TextNode "boom") (Some "a"))
                 (Some 7)]
              (Content success "OK" (TextNode "done") (Some "a")))
      (mkWorld
         [mkEntry (Content error "E" (TextNode "boom") (Some "a")) (Some 7)]
         []) = AwaitEnqueue k /\
    with_id (Some "a")
      (hook_state
         (exec (k (Some 8))
            (mkWorld
               [mkEntry (Content error "E" (TextNode "boom") (Some "a"))
                  (Some 7)] [])))
    = [mkEntry (Content success "OK" (TextNode "done") (Some "a")) (Some 8)].
Proof.
  destruct (addNotification_replaces_prior
              [mkEntry (Content error "E" (TextNode "boom") (Some "a"))
                 (Some 7)]
              success "OK" (TextNode "done") (Some "a")
              (mkWorld
                 [mkEntry (Content error "E" (TextNode "boom") (Some "a"))
                    (Some 7)] []))
    as [k [Hk [_ [Hlist Hclose]]]].
  split.
  - destruct (Hclose "a" eq_refl) as [prior [Hfind [_ [_ [_ [_ Hf]]]]]].
    + discriminate.
    + eexists. split; [now left | reflexivity].
    + injection Hfind as <-. exact (Hf 7 eq_refl).
  - exists k. split; [exact Hk | apply Hlist].
Defined.

(** C2: two completed [addNotification] calls with the same present
    identifier: whichever list update is applied last, its entry is the only
    one left with that identifier, whatever the state cell held before and
    whatever the two calls saw when they were requested. *)
Theorem last_completed_wins :
  forall (cur1 cur2 : list Entry) (wa wb : World)
         (n1 n2 : NotificationState) (i : string),
    id_of n1 = Some i ->
    id_of n2 = Some i ->
    exists k1 k2,
      result (addNotification cur1 n1) wa = AwaitEnqueue k1 /\
      result (addNotification cur2 n2) wb = AwaitEnqueue k2 /\
      forall (c1 c2 : option CloseFn) (w : World),
        with_id (Some i) (hook_state (exec (k2 c2) (exec (k1 c1) w))) =
          [mkEntry n2 c2] /\
        with_id (Some i) (hook_state (exec (k1 c1) (exec (k2 c2) w))) =
          [mkEntry n1 c1].
Proof.
  intros cur1 cur2 wa wb n1 n2 i H1 H2.
  destruct n1 as [ty1 h1 m1 i1|]; [simpl in H1; subst i1 | discriminate].
  destruct n2 as [ty2 h2 m2 i2|]; [simpl in H2; subst i2 | discriminate].
  destruct (addNotification_content cur1 ty1 h1 m1 (Some i) wa)
    as [k1 [E1 K1]].
  destruct (addNotification_content cur2 ty2 h2 m2 (Some i) wb)
    as [k2 [E2 K2]].
  exists k1, k2. unfold result. rewrite E1, E2.
  repeat split; unfold exec; rewrite ?K1, ?K2; simpl;
    unfold with_id; rewrite filter_app, filter_filter_negb; simpl;
    rewrite String.eqb_refl; reflexivity.
Qed.

Lemma last_completed_wins_witness :
  exists k1 k2,
    result (addNotification []
              (Content error "E" (TextNode "boom") (Some "a"))) initial =
      AwaitEnqueue k1 /\
    result (addNotification []
              (Content success "OK" (TextNode "done") (Some "a"))) initial =
      AwaitEnqueue k2 /\
    forall (c1 c2 : option CloseFn) (w : World),
      with_id (Some "a") (hook_state (exec (k2 c2) (exec (k1 c1) w))) =
        [mkEntry (Content success "OK" (TextNode "done") (Some "a")) c2] /\
      with_id (Some "a") (hook_state (exec (k1 c1) (exec (k2 c2) w))) =
        [mkEntry (Content error "E" (TextNode "boom") (Some "a")) c1].
Proof.
  apply (last_completed_wins [] [] initial initial
           (Content error "E" (TextNode "boom") (Some "a"))
           (Content success "OK" (TextNode "done") (Some "a")) "a");
    reflexivity.
Defined.

(** C3: adding a status-code notification (401 or 403) drops every
    status-code entry, keeps the content entries as they are and in their
    order, puts the new status-code entry last, makes no call on the
    toaster, and resolves at once with no close handle. *)
Theorem addNotification_status_code :
  forall (cur : list Entry) (ty : StatusCode) (w : World),
    let w' := exec (addNotification cur (StatusOnly ty)) w in
    result (addNotification cur (StatusOnly ty)) w = Resolved None /\
    trace w' = trace w /\
    hook_state w' =
      filter (fun e => negb (is_status e)) (hook_state w)
        ++ [mkEntry (StatusOnly ty) None] /\
    filter is_status (hook_state w') = [mkEntry (StatusOnly ty) None] /\
    (forall e, In e (hook_state w) -> is_status e = false ->
               In e (hook_state w')).
Proof.
  intros cur ty w w'.
  assert (E : hook_state w' =
              filter (fun e => negb (is_status e)) (hook_state w)
                ++ [mkEntry (StatusOnly ty) None]).
  { subst w'. unfold exec. simpl. f_equal.
    apply filter_ext. intros a. apply not_status_code_spec. }
  repeat split; trivial.
  - rewrite E, filter_app, filter_filter_negb. reflexivity.
  - intros e Hin Hs. rewrite E. apply in_or_app. left.
    apply filter_In. split; [exact Hin | now rewrite Hs].
Qed.

Lemma addNotification_status_code_witness :
  hook_state
    (exec (addNotification [] (StatusOnly code403))
       (mkWorld [mkEntry (StatusOnly code401) None;
                 mkEntry (Content info "h" (TextNode "m") None) (Some 1)] []))
  = [mkEntry (Content info "h" (TextNode "m") None) (Some 1);
     mkEntry (StatusOnly code403) None].
Proof.
  exact (proj1 (proj2 (proj2
    (addNotification_status_code [] code403
       (mkWorld [mkEntry (StatusOnly code401) None;
                 mkEntry (Content info "h" (TextNode "m") None) (Some 1)]
          []))))).
Defined.

(** C4: a content notification without identifier: once the enqueue
    resolves, the update keeps exactly the entries that have an identifier,
    so every entry without one is removed, status-code entries and other
    content entries alike, and the new entry is appended after them. *)
Theorem addNotification_without_id :
  forall (cur : list Entry) (ty : Severity) (h : string) (m : ReactNode)
         (w : World),
    exists k,
      result (addNotification cur (Content ty h m None)) w = AwaitEnqueue k /\
      forall (c : option CloseFn) (w2 : World),
        exists kept,
          hook_state (exec (k c) w2) =
            kept ++ [mkEntry (Content ty h m None) c] /\
          (forall e, In e kept <->
                     In e (hook_state w2) /\ entry_id e <> None) /\
          (forall e, is_status e = true -> ~ In e kept) /\
          with_id None (hook_state (exec (k c) w2)) =
            [mkEntry (Content ty h m None) c].
Proof.
  intros cur ty h m w.
  destruct (addNotification_content cur ty h m None w) as [k [E K]].
  exists k. unfold result. rewrite E. split; [reflexivity|].
  intros c w2. unfold exec. rewrite K. simpl.
  exists (filter (fun n => negb (id_eqb (entry_id n) None)) (hook_state w2)).
  split; [reflexivity|]. split; [|split].
  - intros e. rewrite filter_In, negb_true_iff, id_eqb_neq. reflexivity.
  - intros e Hs Hin. apply filter_In in Hin as [_ Hid].
    unfold is_status in Hs. unfold entry_id in Hid.
    destruct (state e); [discriminate Hs | discriminate Hid].
  - unfold with_id. rewrite filter_app, filter_filter_negb. reflexivity.
Qed.

Lemma addNotification_without_id_witness :
  exists k,
    result (addNotification [] (Content info "h" (TextNode "m") None)) initial
      = AwaitEnqueue k /\
    hook_state
      (exec (k (Some 2))
         (mkWorld [mkEntry (StatusOnly code401) None;
                   mkEntry (Content info "x" (TextNode "y") (Some "a"))
                     (Some 0);
                   mkEntry (Content info "h" (TextNode "m") None) (Some 1)]
            []))
    = [mkEntry (Content info "x" (TextNode "y") (Some "a")) (Some 0);
       mkEntry (Content info "h" (TextNode "m") None) (Some 2)].
Proof.
  destruct (addNotification_without_id [] info "h" (TextNode "m") initial)
    as [k [E _]].
  exists k. split; [exact E|].
  injection E as <-. reflexivity.
Defined.

(** *** Invariants of the list *)

Section Invariants.
Variable P : list Entry -> Prop.
Hypothesis P_initial : P (hook_state initial).
Hypothesis P_kept : kept_by_all_operations P.

Lemma step_invariant (w w' : World) :
  step w w' -> P (hook_state w) -> P (hook_state w').
Proof.
  destruct P_kept as [Hadd [Hclose [Hreset Hdown]]].
  intros [cur n | cur n w0 k c Hk | cur id | |] Hw.
  - now apply (Hadd cur n w).
  - destruct (suspends_on_content cur n w0 k Hk) as [ty [h [m [i ->]]]].
    pose proof (continuation_total cur ty h m i w0 k Hk) as Hk'.
    destruct (Hadd cur (Content ty h m i) w Hw) as [_ Hres].
    now apply (Hres k (Hk' w)).
  - now apply Hclose.
  - now apply Hreset.
  - now apply Hdown.
Qed.

Lemma reachable_invariant (w : World) : reachable w -> P (hook_state w).
Proof.
  induction 1 as [|w w' _ IH Hstep]; [exact P_initial|].
  exact (step_invariant w w' Hstep IH).
Qed.
End Invariants.

Lemma one_status_per_kind_filter (p : Entry -> bool) (l : list Entry) :
  one_status_per_kind l -> one_status_per_kind (filter p l).
Proof.
  intros [H1 H3]. split.
  - pose proof (filter_length_le (has_code code401) p l). lia.
  - pose proof (filter_length_le (has_code code403) p l). lia.
Qed.

Lemma has_code_not_status (c : StatusCode) (l : list Entry) :
  filter (has_code c) (filter not_status_code l) = [].
Proof.
  induction l as [|e l IH]; simpl; [reflexivity|].
  destruct (not_status_code e) eqn:E; simpl; [|exact IH].
  rewrite not_status_code_spec in E. unfold is_status in E.
  unfold has_code. destruct (state e); [exact IH | discriminate E].
Qed.

Lemma one_status_per_kind_kept : kept_by_all_operations one_status_per_kind.
Proof.
  split; [|split; [|split]].
  - intros cur [ty h m i | ty] w Hw.
    + destruct (addNotification_content cur ty h m i w) as [k [E K]].
      unfold exec, result. rewrite E. simpl. split; [exact Hw|].
      intros k' Hk c w2 Hw2. injection Hk as <-.
      unfold exec. rewrite K. simpl.
      apply (one_status_per_kind_filter
               (fun n => negb (id_eqb (entry_id n) i))) in Hw2.
      destruct Hw2 as [H1 H3].
      split; rewrite filter_app, length_app; simpl; lia.
    + split; [|intros k Hk; discriminate Hk].
      unfold exec. simpl.
      split; rewrite filter_app, has_code_not_status;
        destruct ty; simpl; lia.
  - intros cur id w Hw. unfold exec, closeNotification.
    destruct (find _ cur); simpl; [|exact Hw].
    now apply one_status_per_kind_filter.
  - intros w _. split; simpl; lia.
  - intros w _. split; simpl; lia.
Qed.

Lemma unique_ids_kept : kept_by_all_operations unique_ids.
Proof.
  unfold unique_ids. split; [|split; [|split]].
  - intros cur [ty h m i | ty] w Hw.
    + destruct (addNotification_content cur ty h m i w) as [k [E K]].
      unfold exec, result. rewrite E. simpl. split; [exact Hw|].
      intros k' Hk c w2 Hw2. injection Hk as <-.
      unfold exec. rewrite K. simpl. rewrite present_ids_app.
      apply (present_ids_filter_NoDup
               (fun n => negb (id_eqb (entry_id n) i))) in Hw2.
      destruct i as [j|]; simpl; [|now rewrite app_nil_r].
      apply NoDup_app; [exact Hw2 | repeat constructor; easy|].
      intros x Hx [<- | []]. apply present_ids_In in Hx as [e [He Hid]].
      apply filter_In in He as [_ He]. apply negb_true_iff, id_eqb_neq in He.
      contradiction.
    + split; [|intros k Hk; discriminate Hk].
      unfold exec. simpl. rewrite present_ids_app. simpl.
      rewrite app_nil_r. now apply present_ids_filter_NoDup.
  - intros cur id w Hw. unfold exec, closeNotification.
    destruct (find _ cur); simpl; [|exact Hw].
    now apply present_ids_filter_NoDup.
  - intros w _. constructor.
  - intros w _. constructor.
Qed.

(** Both invariants hold in every state the provider can reach. *)
Corollary reachable_one_status_per_kind (w : World) :
  reachable w -> one_status_per_kind (hook_state w).
Proof.
  apply reachable_invariant; [split; simpl; lia|].
  exact one_status_per_kind_kept.
Qed.

Corollary reachable_unique_ids (w : World) :
  reachable w -> unique_ids (hook_state w).
Proof.
  apply reachable_invariant; [constructor | exact unique_ids_kept].
Qed.

(** C5: "at most one 401 entry and at most one 403 entry" holds of the
    initial empty list and is kept by [addNotification] (the status-code
    branch, the content branch before the [await] and its continuation in
    whatever state it resumes), by [closeNotification], by
    [resetNotifications] and by the teardown. *)
Theorem one_status_per_kind_invariant :
  one_status_per_kind (hook_state initial) /\
  (forall cur n, preserves_async one_status_per_kind (addNotification cur n)) /\
  (forall cur id, preserves one_status_per_kind (closeNotification cur id)) /\
  preserves one_status_per_kind resetNotifications /\
  preserves one_status_per_kind teardown.
Proof.
  split; [split; simpl; lia | exact one_status_per_kind_kept].
Qed.

Lemma one_status_per_kind_invariant_witness :
  one_status_per_kind
    (hook_state
       (exec (addNotification [] (StatusOnly code401))
          (mkWorld [mkEntry (StatusOnly code401) None;
                    mkEntry (StatusOnly code403) None] []))).
Proof.
  apply (proj1 (proj2 one_status_per_kind_invariant) []
           (StatusOnly code401)).
  split; simpl; lia.
Defined.

(** C6: "every present identifier is carried by at most one entry" holds
    of the initial empty list and is kept by [addNotification],
    [closeNotification], [resetNotifications] and the teardown.  In
    particular every content add suspends on the enqueue, and its
    continuation, in whatever state it resumes, writes the entries of that
    state that do not carry the new identifier, followed by the new entry:
    no earlier entry with the new identifier is left in front of it, and
    the list it writes has unique identifiers again. *)
Theorem unique_ids_invariant :
  unique_ids (hook_state initial) /\
  (forall cur n, preserves_async unique_ids (addNotification cur n)) /\
  (forall cur id, preserves unique_ids (closeNotification cur id)) /\
  preserves unique_ids resetNotifications /\
  preserves unique_ids teardown /\
  (forall cur ty h m i w,
      exists k,
        result (addNotification cur (Content ty h m i)) w = AwaitEnqueue k /\
        forall c w2,
          (exists kept,
             hook_state (exec (k c) w2) =
               kept ++ [mkEntry (Content ty h m i) c] /\
             (forall e, In e kept <->
                        In e (hook_state w2) /\ entry_id e <> i) /\
             ~ occurs i kept) /\
          (unique_ids (hook_state w2) ->
           unique_ids (hook_state (exec (k c) w2)))).
Proof.
  split; [constructor|].
  destruct unique_ids_kept as [Hadd [Hclose [Hreset Hdown]]].
  repeat (split; [assumption|]).
  intros cur ty h m i w.
  destruct (addNotification_content cur ty h m i w) as [k [E K]].
  assert (Hk : result (addNotification cur (Content ty h m i)) w =
               AwaitEnqueue k) by (unfold result; now rewrite E).
  exists k. split; [exact Hk|]. intros c w2. split.
  - unfold exec. rewrite K. simpl. eexists. split; [reflexivity|]. split.
    + intros e. rewrite filter_In, negb_true_iff, id_eqb_neq. reflexivity.
    + intros [e [He Hid]]. apply filter_In in He as [_ He].
      apply negb_true_iff, id_eqb_neq in He. contradiction.
  - intros Hu.
    destruct (Hadd cur (Content ty h m i) w2 Hu) as [_ Hres].
    apply (Hres k (continuation_total cur ty h m i w k Hk w2) c w2 Hu).
Qed.

Lemma unique_ids_invariant_witness :
  exists k,
    result (addNotification
              [mkEntry (Content error "E" (TextNode "boom") (Some "a"))
                 (Some 1);
               mkEntry (Content info "h" (TextNode "m") (Some "b")) (Some 2)]
              (Content success "OK" (TextNode "done") (Some "a")))
      initial = AwaitEnqueue k /\
    hook_state
      (exec (k (Some 3))
         (mkWorld
            [mkEntry (Content error "E" (TextNode "boom") (Some "a")) (Some 1);
             mkEntry (Content info "h" (TextNode "m") (Some "b")) (Some 2)]
            []))
    = [mkEntry (Content info "h" (TextNode "m") (Some "b")) (Some 2);
       mkEntry (Content success "OK" (TextNode "done") (Some "a")) (Some 3)] /\
    unique_ids
      (hook_state
         (exec (k (Some 3))
            (mkWorld
               [mkEntry (Content error "E" (TextNode "boom") (Some "a"))
                  (Some 1);
                mkEntry (Content info "h" (TextNode "m") (Some "b")) (Some 2)]
               []))).
Proof.
  destruct (proj2 (proj2 (proj2 (proj2 (proj2 unique_ids_invariant))))
              [mkEntry (Content error "E" (TextNode "boom") (Some "a"))
                 (Some 1);
               mkEntry (Content info "h" (TextNode "m") (Some "b")) (Some 2)]
              success "OK" (TextNode "done") (Some "a") initial)
    as [k [Hk K]].
  exists k. split; [exact Hk|].
  destruct (K (Some 3)
              (mkWorld
                 [mkEntry (Content error "E" (TextNode "boom") (Some "a"))
                    (Some 1);
                  mkEntry (Content info "h" (TextNode "m") (Some "b"))
                    (Some 2)] [])) as [_ Hu].
  split.
  - injection Hk as <-. reflexivity.
  - apply Hu. unfold unique_ids. simpl.
    repeat constructor; simpl; intuition discriminate.
Defined.

(** C7: a content notification whose identifier is present: the list is
    left alone until the enqueue resolves, and if the identifier does not
    occur in the list at that point, the update appends the new entry to
    it: one entry more, every earlier entry still there. *)
Theorem addNotification_fresh_id :
  forall (cur : list Entry) (ty : Severity) (h : string) (m : ReactNode)
         (i : string) (w : World),
    hook_state (exec (addNotification cur (Content ty h m (Some i))) w) =
      hook_state w /\
    exists k,
      result (addNotification cur (Content ty h m (Some i))) w =
        AwaitEnqueue k /\
      forall (c : option CloseFn) (w2 : World),
        ~ occurs (Some i) (hook_state w2) ->
        hook_state (exec (k c) w2) =
          hook_state w2 ++ [mkEntry (Content ty h m (Some i)) c] /\
        length (hook_state (exec (k c) w2)) = S (length (hook_state w2)) /\
        (forall e, In e (hook_state w2) -> In e (hook_state (exec (k c) w2))).
Proof.
  intros cur ty h m i w.
  destruct (addNotification_content cur ty h m (Some i) w) as [k [E K]].
  unfold exec, result. rewrite E. split; [reflexivity|].
  exists k. split; [reflexivity|].
  intros c w2 Hfresh. rewrite K. simpl.
  rewrite (with_id_not_occurs _ _ Hfresh).
  split; [reflexivity|]. split.
  - rewrite length_app. simpl. lia.
  - intros e He. apply in_or_app. now left.
Qed.

Lemma addNotification_fresh_id_witness :
  exists k,
    result (addNotification [] (Content error "E" (TextNode "boom") (Some "a")))
      initial = AwaitEnqueue k /\
    length (hook_state (exec (k (Some 1)) initial)) = 1.
Proof.
  destruct (addNotification_fresh_id [] error "E" (TextNode "boom") "a"
              initial) as [_ [k [E K]]].
  exists k. split; [exact E|].
  refine (proj1 (proj2 (K (Some 1) initial _))).
  intros [e [[] _]].
Defined.

(** C8: [resetNotifications] calls the toaster's [closeAll] and leaves the
    list empty, whatever the list held, the empty list included. *)
Theorem resetNotifications_spec :
  forall w : World,
    trace (exec resetNotifications w) = trace w ++ [CloseAll] /\
    hook_state (exec resetNotifications w) = [] /\
    exec resetNotifications initial = mkWorld [] [CloseAll].
Proof. intros w. repeat split. Qed.

(** C9: the teardown calls [closeAll] exactly once and clears the list,
    whatever the list holds at that moment. *)
Theorem teardown_spec :
  forall w : World,
    trace (exec teardown w) = trace w ++ [CloseAll] /\
    closeAll_calls (trace (exec teardown w)) = S (closeAll_calls (trace w)) /\
    hook_state (exec teardown w) = [].
Proof.
  intros w. repeat split. unfold exec, closeAll_calls. simpl.
  rewrite filter_app, length_app. simpl. lia.
Qed.

(** C10: [closeNotification id] with an identifier that does not occur in
    the rendered list changes neither the list nor the trace; with one that
    does occur, the close callback stored on the entry found is called and
    the update leaves no entry with that identifier. *)
Theorem closeNotification_spec :
  forall (cur : list Entry) (id : string) (w : World),
    (~ occurs (Some id) cur -> exec (closeNotification cur id) w = w) /\
    (occurs (Some id) cur ->
     exists found,
       find (fun n => id_eqb (entry_id n) (Some id)) cur = Some found /\
       In found cur /\ entry_id found = Some id /\
       trace (exec (closeNotification cur id) w) =
         trace w ++ invoke (closeFn found) /\
       (forall f, closeFn found = Some f ->
          trace (exec (closeNotification cur id) w) = trace w ++ [Close f]) /\
       hook_state (exec (closeNotification cur id) w) =
         filter (fun n => negb (id_eqb (entry_id n) (Some id))) (hook_state w) /\
       ~ occurs (Some id) (hook_state (exec (closeNotification cur id) w))).
Proof.
  intros cur id w. unfold exec, closeNotification. split.
  - intros H. apply find_none_not_occurs in H. rewrite H. reflexivity.
  - intros H.
    destruct (find (fun n => id_eqb (entry_id n) (Some id)) cur)
      as [found|] eqn:Hfind.
    + exists found. pose proof (find_some _ _ Hfind) as [Hin Hid].
      apply id_eqb_eq in Hid. simpl.
      repeat split; trivial.
      * intros f Hf. now rewrite Hf.
      * intros [e [He He']]. apply filter_In in He as [_ He].
        apply negb_true_iff, id_eqb_neq in He. contradiction.
    + apply find_none_not_occurs in Hfind. contradiction.
Qed.

Lemma closeNotification_spec_witness :
  exec (closeNotification
          [mkEntry (Content info "h" (TextNode "m") (Some "a")) (Some 1)] "b")
    (mkWorld [mkEntry (Content info "h" (TextNode "m") (Some "a")) (Some 1)] [])
  = mkWorld [mkEntry (Content info "h" (TextNode "m") (Some "a")) (Some 1)] []
  /\
  trace
    (exec (closeNotification
             [mkEntry (Content info "h" (TextNode "m") (Some "a")) (Some 1)]
             "a")
       (mkWorld [mkEntry (Content info "h" (TextNode "m") (Some "a")) (Some 1)]
          []))
  = [Close 1].
Proof.
  split.
  - apply (proj1 (closeNotification_spec
             [mkEntry (Content info "h" (TextNode "m") (Some "a")) (Some 1)]
             "b" _)).
    intros [e [[<- | []] He]]. discriminate He.
  - destruct (proj2 (closeNotification_spec
             [mkEntry (Content info "h" (TextNode "m") (Some "a")) (Some 1)]
             "a"
             (mkWorld
                [mkEntry (Content info "h" (TextNode "m") (Some "a")) (Some 1)]
                [])))
      as [found [Hf [_ [_ [_ [Hc _]]]]]].
    + eexists. split; [now left | reflexivity].
    + injection Hf as <-. exact (Hc 1 eq_refl).
Defined.

(** ** Further properties of the provider *)

Lemma find_filter_negb {A : Type} (p : A -> bool) (l : list A) :
  find p (filter (fun x => negb (p x)) l) = None.
Proof.
  induction l as [|a l IH]; simpl; [reflexivity|].
  destruct (p a) eqn:E; simpl; [exact IH | now rewrite E].
Qed.

Lemma find_app_none {A : Type} (p : A -> bool) (l1 l2 : list A) :
  find p l1 = None -> find p (l1 ++ l2) = find p l2.
Proof.
  induction l1 as [|a l1 IH]; simpl; [reflexivity|].
  destruct (p a); [discriminate | exact IH].
Qed.

Lemma filter_idempotent {A : Type} (p : A -> bool) (l : list A) :
  filter p (filter p l) = filter p l.
Proof.
  induction l as [|a l IH]; simpl; [reflexivity|].
  destruct (p a) eqn:E; simpl; rewrite ?E, IH; reflexivity.
Qed.

Lemma existsb_filter_negb {A : Type} (p : A -> bool) (l : list A) :
  existsb p (filter (fun x => negb (p x)) l) = false.
Proof.
  induction l as [|a l IH]; simpl; [reflexivity|].
  destruct (p a) eqn:E; simpl; [exact IH | now rewrite E].
Qed.

(** The list written by the continuation of a content add, searched or
    filtered again for the identifier that was added. *)
Lemma find_added (n : NotificationState) (c : option CloseFn)
  (l : list Entry) :
  find (fun e => id_eqb (entry_id e) (id_of n))
    (filter (fun e => negb (id_eqb (entry_id e) (id_of n))) l ++ [mkEntry n c])
  = Some (mkEntry n c).
Proof.
  rewrite find_app_none
    by apply (find_filter_negb (fun e => id_eqb (entry_id e) (id_of n))).
  simpl. unfold entry_id. simpl. now rewrite id_eqb_refl.
Qed.

Lemma filter_added (n : NotificationState) (c : option CloseFn)
  (l : list Entry) :
  filter (fun e => negb (id_eqb (entry_id e) (id_of n)))
    (filter (fun e => negb (id_eqb (entry_id e) (id_of n))) l ++ [mkEntry n c])
  = filter (fun e => negb (id_eqb (entry_id e) (id_of n))) l.
Proof.
  rewrite filter_app, filter_idempotent. simpl.
  unfold entry_id at 1. simpl. rewrite id_eqb_refl. simpl.
  apply app_nil_r.
Qed.

(** X1: a content notification with identifier [i] is added and, once its
    enqueue has resolved with [c], closed again by identifier from the
    re-rendered context.  The promise yields [c], the close calls exactly
    that callback, and the list is what it was when the enqueue resolved,
    less the entries that carried [i]; if [i] was fresh, the list is back
    to what it was. *)
Theorem add_then_close_roundtrip :
  forall (cur : list Entry) (ty : Severity) (h : string) (m : ReactNode)
         (i : string) (w : World),
    exists k,
      result (addNotification cur (Content ty h m (Some i))) w =
        AwaitEnqueue k /\
      forall (c : option CloseFn) (w2 : World),
        let w3 := exec (k c) w2 in
        let w4 := exec (closeNotification (hook_state w3) i) w3 in
        result (k c) w2 = c /\
        trace w4 = trace w2 ++ invoke c /\
        hook_state w4 =
          filter (fun e => negb (id_eqb (entry_id e) (Some i)))
            (hook_state w2) /\
        (~ occurs (Some i) (hook_state w2) -> hook_state w4 = hook_state w2).
Proof.
  intros cur ty h m i w.
  destruct (addNotification_content cur ty h m (Some i) w) as [k [E K]].
  exists k. unfold result. rewrite E. split; [reflexivity|].
  intros c w2. cbv zeta. unfold exec. rewrite K. cbn [fst snd hook_state].
  unfold closeNotification.
  pose proof (find_added (Content ty h m (Some i)) c (hook_state w2)) as Hf.
  pose proof (filter_added (Content ty h m (Some i)) c (hook_state w2)) as Hd.
  cbn [id_of] in Hf, Hd. rewrite Hf.
  unfold bind, call_optional, setNotifications.
  cbn [fst snd hook_state trace closeFn]. rewrite Hd.
  repeat split. intros Hfresh. now apply with_id_not_occurs.
Qed.

Lemma add_then_close_roundtrip_witness :
  exists k,
    result (addNotification [] (Content error "E" (TextNode "boom") (Some "a")))
      initial = AwaitEnqueue k /\
    hook_state
      (exec (closeNotification (hook_state (exec (k (Some 3)) initial)) "a")
         (exec (k (Some 3)) initial)) = hook_state initial.
Proof.
  destruct (add_then_close_roundtrip [] error "E" (TextNode "boom") "a"
              initial) as [k [E K]].
  exists k. split; [exact E|].
  refine (proj2 (proj2 (proj2 (K (Some 3) initial))) _).
  intros [e [[] _]].
Defined.

(** X2: closing the same identifier again from the re-rendered context
    does nothing at all: no callback is called a second time and the list
    stays as the first close left it. *)
Theorem closeNotification_again_is_noop :
  forall (id : string) (w : World),
    let w1 := exec (closeNotification (hook_state w) id) w in
    exec (closeNotification (hook_state w1) id) w1 = w1.
Proof.
  intros id w. cbv zeta. unfold exec, closeNotification at 2.
  destruct (find (fun n => id_eqb (entry_id n) (Some id)) (hook_state w))
    as [found|] eqn:Hfind.
  - cbn [snd bind call_optional setNotifications hook_state].
    unfold closeNotification.
    rewrite (find_filter_negb (fun n => id_eqb (entry_id n) (Some id))).
    reflexivity.
  - simpl. unfold closeNotification. rewrite Hfind. reflexivity.
Qed.

(** X3: two [closeNotification] calls made through the context of one
    render, in which the identifier is found: the close callback of the
    found entry is called both times, and the list is filtered as by one
    call. *)
Theorem closeNotification_stale_calls_twice :
  forall (cur : list Entry) (id : string) (found : Entry) (w : World),
    find (fun n => id_eqb (entry_id n) (Some id)) cur = Some found ->
    exec (closeNotification cur id) (exec (closeNotification cur id) w) =
      mkWorld
        (filter (fun n => negb (id_eqb (entry_id n) (Some id))) (hook_state w))
        ((trace w ++ invoke (closeFn found)) ++ invoke (closeFn found)).
Proof.
  intros cur id found w Hfind. unfold exec, closeNotification.
  rewrite Hfind. simpl. now rewrite filter_idempotent.
Qed.

Lemma closeNotification_stale_calls_twice_witness :
  exec (closeNotification
          [mkEntry (Content info "h" (TextNode "m") (Some "a")) (Some 1)] "a")
    (exec (closeNotification
             [mkEntry (Content info "h" (TextNode "m") (Some "a")) (Some 1)]
             "a")
       (mkWorld [mkEntry (Content info "h" (TextNode "m") (Some "a")) (Some 1)]
          []))
  = mkWorld [] [Close 1; Close 1].
Proof.
  apply (closeNotification_stale_calls_twice
           [mkEntry (Content info "h" (TextNode "m") (Some "a")) (Some 1)]
           "a"
           (mkEntry (Content info "h" (TextNode "m") (Some "a")) (Some 1))).
  reflexivity.
Defined.

Lemma settle_content cur ty h m i c w :
  settle (addNotification cur (Content ty h m i)) c w =
    (c,
     mkWorld
       (filter (fun n => negb (id_eqb (entry_id n) i)) (hook_state w)
          ++ [mkEntry (Content ty h m i) c])
       ((trace w ++
         (if truthy i && existsb (fun n => id_eqb (entry_id n) i) cur
          then invoke (found_closeFn
                         (find (fun n => id_eqb (entry_id n) i) cur))
          else [])) ++ [Enqueue (toast_of ty h m)])).
Proof.
  unfold settle, addNotification, bind, emit, ret.
  destruct (truthy i && existsb _ cur); simpl;
    rewrite ?app_nil_r; reflexivity.
Qed.

(** X4: the same non-empty identifier is added twice, each enqueue
    answered before the next call, the second call made through the
    re-rendered context.  The second call closes the first toast with the
    very callback the toaster returned for it, then enqueues; afterwards
    the second entry is the only one with that identifier, at the end of
    the list. *)
Theorem readd_closes_previous :
  forall (ty1 ty2 : Severity) (h1 h2 : string) (m1 m2 : ReactNode)
         (i : string) (c1 c2 : option CloseFn) (w : World),
    i <> EmptyString ->
    let w1 := exec (settle (addNotification (hook_state w)
                              (Content ty1 h1 m1 (Some i))) c1) w in
    let w2 := exec (settle (addNotification (hook_state w1)
                              (Content ty2 h2 m2 (Some i))) c2) w1 in
    trace w2 = (trace w1 ++ invoke c1) ++ [Enqueue (toast_of ty2 h2 m2)] /\
    hook_state w2 =
      filter (fun n => negb (id_eqb (entry_id n) (Some i))) (hook_state w)
        ++ [mkEntry (Content ty2 h2 m2 (Some i)) c2] /\
    with_id (Some i) (hook_state w2) = [mkEntry (Content ty2 h2 m2 (Some i)) c2].
Proof.
  intros ty1 ty2 h1 h2 m1 m2 i c1 c2 w Hi. cbv zeta.
  assert (Ht : truthy (Some i) = true)
    by (destruct i; [contradiction | reflexivity]).
  unfold exec. rewrite (settle_content (hook_state w)).
  cbn [snd]. rewrite settle_content. cbn [snd hook_state trace].
  pose proof (find_added (Content ty1 h1 m1 (Some i)) c1 (hook_state w)) as Hf.
  pose proof (filter_added (Content ty1 h1 m1 (Some i)) c1 (hook_state w))
    as Hd.
  cbn [id_of] in Hf, Hd.
  assert (He : existsb (fun n => id_eqb (entry_id n) (Some i))
                 (filter (fun n => negb (id_eqb (entry_id n) (Some i)))
                    (hook_state w) ++ [mkEntry (Content ty1 h1 m1 (Some i)) c1])
               = true).
  { apply existsb_occurs. exists (mkEntry (Content ty1 h1 m1 (Some i)) c1).
    split; [|reflexivity]. apply in_or_app. right. now left. }
  rewrite Hf, Hd, He, Ht. cbn [andb found_closeFn closeFn].
  repeat split.
  unfold with_id. rewrite filter_app, filter_filter_negb. simpl.
  now rewrite String.eqb_refl.
Qed.

Lemma readd_closes_previous_witness :
  trace
    (exec (settle (addNotification
                     [mkEntry (Content error "E" (TextNode "boom") (Some "a"))
                        (Some 1)]
                     (Content success "OK" (TextNode "done") (Some "a")))
             (Some 2))
       (exec (settle (addNotification []
                        (Content error "E" (TextNode "boom") (Some "a")))
                (Some 1)) initial))
  = [Enqueue (toast_of error "E" (TextNode "boom")); Close 1;
     Enqueue (toast_of success "OK" (TextNode "done"))].
Proof.
  refine (proj1 (readd_closes_previous error success "E" "OK"
                   (TextNode "boom") (TextNode "done") "a" (Some 1) (Some 2)
                   initial _)).
  discriminate.
Defined.

(** X5: the continuation of a content add touches only entries that carry
    the identifier of the new notification: the list it writes is the
    entries with another identifier, in their old order, followed by the
    new entry, so it is never empty and at most one longer than before. *)
Theorem addNotification_keeps_other_ids :
  forall (cur : list Entry) (ty : Severity) (h : string) (m : ReactNode)
         (i : option string) (w : World),
    exists k,
      result (addNotification cur (Content ty h m i)) w = AwaitEnqueue k /\
      forall (c : option CloseFn) (w2 : World),
        let l' := hook_state (exec (k c) w2) in
        (exists kept,
           l' = kept ++ [mkEntry (Content ty h m i) c] /\
           forall e, In e kept <-> In e (hook_state w2) /\ entry_id e <> i) /\
        filter (fun e => negb (id_eqb (entry_id e) i)) l' =
          filter (fun e => negb (id_eqb (entry_id e) i)) (hook_state w2) /\
        (forall e, In e (hook_state w2) -> entry_id e <> i -> In e l') /\
        last l' (mkEntry (Content ty h m i) c) = mkEntry (Content ty h m i) c /\
        1 <= length l' <= S (length (hook_state w2)).
Proof.
  intros cur ty h m i w.
  destruct (addNotification_content cur ty h m i w) as [k [E K]].
  exists k. unfold result. rewrite E. split; [reflexivity|].
  intros c w2. cbv zeta. unfold exec. rewrite K. cbn [snd hook_state].
  split; [|split; [|split; [|split]]].
  - eexists. split; [reflexivity|]. intros e.
    rewrite filter_In, negb_true_iff, id_eqb_neq. reflexivity.
  - exact (filter_added (Content ty h m i) c (hook_state w2)).
  - intros e He Hid. apply in_or_app. left. apply filter_In.
    split; [exact He | now apply negb_true_iff, id_eqb_neq].
  - apply last_last.
  - rewrite length_app. simpl.
    pose proof (List.filter_length_le
                  (fun e => negb (id_eqb (entry_id e) i)) (hook_state w2)).
    lia.
Qed.

Lemma addNotification_keeps_other_ids_witness :
  exists k,
    result (addNotification [] (Content info "h" (TextNode "m") (Some "b")))
      initial = AwaitEnqueue k /\
    In (mkEntry (Content info "x" (TextNode "y") (Some "a")) (Some 0))
      (hook_state
         (exec (k (Some 1))
            (mkWorld [mkEntry (Content info "x" (TextNode "y") (Some "a"))
                        (Some 0)] []))) /\
    In (mkEntry (Content info "h" (TextNode "m") (Some "b")) (Some 1))
      (hook_state (exec (k (Some 1)) initial)).
Proof.
  destruct (addNotification_keeps_other_ids [] info "h" (TextNode "m")
              (Some "b") initial) as [k [E K]].
  exists k. split; [exact E|]. split.
  - apply (proj1 (proj2 (proj2 (K (Some 1)
             (mkWorld [mkEntry (Content info "x" (TextNode "y") (Some "a"))
                         (Some 0)] []))))).
    + now left.
    + discriminate.
  - destruct (proj1 (K (Some 1) initial)) as [kept [-> _]].
    apply in_or_app. right. now left.
Defined.

(** X6: [closeNotification] cannot remove an entry without identifier: the
    status-code entries and the content entries without identifier are the
    same before and after, and so is every entry with another
    identifier. *)
Theorem closeNotification_keeps_other_entries :
  forall (cur : list Entry) (id : string) (w : World),
    let l' := hook_state (exec (closeNotification cur id) w) in
    filter (fun e => negb (id_eqb (entry_id e) (Some id))) l' =
      filter (fun e => negb (id_eqb (entry_id e) (Some id))) (hook_state w) /\
    with_id None l' = with_id None (hook_state w) /\
    filter is_status l' = filter is_status (hook_state w).
Proof.
  intros cur id w. cbv zeta. unfold exec, closeNotification.
  destruct (find _ cur) as [found|]; [|now repeat split].
  cbn [snd bind call_optional setNotifications hook_state].
  split; [apply filter_idempotent|].
  assert (H : forall p : Entry -> bool,
             (forall e, p e = true -> entry_id e = None) ->
             filter p (filter (fun n => negb (id_eqb (entry_id n) (Some id)))
                         (hook_state w)) = filter p (hook_state w)).
  { intros p Hp. induction (hook_state w) as [|a l IH]; [reflexivity|].
    simpl. destruct (p a) eqn:Ea.
    - rewrite (Hp a Ea). simpl. rewrite Ea. now f_equal.
    - destruct (negb _); simpl; rewrite ?Ea; exact IH. }
  split; apply H; intros e He.
  - now apply id_eqb_eq in He.
  - unfold is_status in He. unfold entry_id.
    destruct (state e); [discriminate | reflexivity].
Qed.

(** X7: two status-code notifications in a row: the list is the one the
    second alone would have produced, with the second as the only
    status-code entry (a 401 followed by a 403 leaves the 403). *)
Theorem status_code_last_wins :
  forall (cur1 cur2 : list Entry) (t1 t2 : StatusCode) (w : World),
    let w1 := exec (addNotification cur1 (StatusOnly t1)) w in
    hook_state (exec (addNotification cur2 (StatusOnly t2)) w1) =
      hook_state (exec (addNotification cur2 (StatusOnly t2)) w) /\
    filter is_status
      (hook_state (exec (addNotification cur2 (StatusOnly t2)) w1)) =
      [mkEntry (StatusOnly t2) None] /\
    trace (exec (addNotification cur2 (StatusOnly t2)) w1) = trace w.
Proof.
  intros cur1 cur2 t1 t2 w. cbv zeta. unfold exec. simpl.
  assert (E : filter not_status_code
                (filter not_status_code (hook_state w)
                   ++ [mkEntry (StatusOnly t1) None]) =
              filter not_status_code (hook_state w)).
  { rewrite filter_app, filter_idempotent.
    destruct t1; simpl; apply app_nil_r. }
  rewrite E. repeat split.
  rewrite filter_app.
  rewrite (filter_ext _ _ not_status_code_spec), filter_filter_negb.
  reflexivity.
Qed.

(** X8: an add that is waiting for the toaster is not cancelled by
    [resetNotifications]: when the enqueue resolves after the reset, the
    new entry is put into the emptied list, although [closeAll] has
    already been called. *)
Theorem pending_add_survives_reset :
  forall (cur : list Entry) (ty : Severity) (h : string) (m : ReactNode)
         (i : option string) (w : World),
    exists k,
      result (addNotification cur (Content ty h m i)) w = AwaitEnqueue k /\
      forall (c : option CloseFn) (w2 : World),
        exec (k c) (exec resetNotifications w2) =
          mkWorld [mkEntry (Content ty h m i) c] (trace w2 ++ [CloseAll]).
Proof.
  intros cur ty h m i w.
  destruct (addNotification_content cur ty h m i w) as [k [E K]].
  exists k. unfold result. rewrite E. split; [reflexivity|].
  intros c w2. unfold exec. rewrite K. reflexivity.
Qed.

(** X9: two adds with the same identifier made through the context of one
    render, in which that identifier does not occur.  Neither call closes
    anything: the toaster gets two enqueues and nothing else.  Whichever
    of the two enqueues resolves last, its entry is the one the list ends
    with, and the entry of the other is gone from the list although its
    close callback was never called. *)
Theorem same_render_adds_leave_first_open :
  forall (cur : list Entry) (ty1 ty2 : Severity) (h1 h2 : string)
         (m1 m2 : ReactNode) (i : string) (w : World),
    ~ occurs (Some i) cur ->
    let n1 := Content ty1 h1 m1 (Some i) in
    let n2 := Content ty2 h2 m2 (Some i) in
    let w2 := exec (addNotification cur n2) (exec (addNotification cur n1) w) in
    let others :=
      filter (fun n => negb (id_eqb (entry_id n) (Some i))) (hook_state w) in
    trace w2 =
      trace w ++ [Enqueue (toast_of ty1 h1 m1); Enqueue (toast_of ty2 h2 m2)] /\
    close_calls (trace w2) = close_calls (trace w) /\
    exists k1 k2,
      result (addNotification cur n1) w = AwaitEnqueue k1 /\
      result (addNotification cur n2) (exec (addNotification cur n1) w) =
        AwaitEnqueue k2 /\
      forall c1 c2 : option CloseFn,
        exec (k2 c2) (exec (k1 c1) w2) =
          mkWorld (others ++ [mkEntry n2 c2]) (trace w2) /\
        exec (k1 c1) (exec (k2 c2) w2) =
          mkWorld (others ++ [mkEntry n1 c1]) (trace w2).
Proof.
  intros cur ty1 ty2 h1 h2 m1 m2 i w Hfresh. cbv zeta.
  assert (He : existsb (fun n => id_eqb (entry_id n) (Some i)) cur = false).
  { destruct (existsb _ cur) eqn:E; [|reflexivity].
    apply existsb_occurs in E. contradiction. }
  destruct (addNotification_content cur ty1 h1 m1 (Some i) w)
    as [k1 [E1 K1]].
  rewrite He, andb_false_r, app_nil_r in E1.
  assert (W1 : exec (addNotification cur (Content ty1 h1 m1 (Some i))) w =
               mkWorld (hook_state w) (trace w ++ [Enqueue (toast_of ty1 h1 m1)]))
    by (unfold exec; now rewrite E1).
  rewrite W1.
  destruct (addNotification_content cur ty2 h2 m2 (Some i)
              (mkWorld (hook_state w)
                 (trace w ++ [Enqueue (toast_of ty1 h1 m1)])))
    as [k2 [E2 K2]].
  rewrite He, andb_false_r, app_nil_r in E2. cbn [hook_state trace] in E2.
  assert (W2 : exec (addNotification cur (Content ty2 h2 m2 (Some i)))
                 (mkWorld (hook_state w)
                    (trace w ++ [Enqueue (toast_of ty1 h1 m1)])) =
               mkWorld (hook_state w)
                 (trace w ++ [Enqueue (toast_of ty1 h1 m1);
                              Enqueue (toast_of ty2 h2 m2)])).
  { unfold exec. rewrite E2. cbn [snd]. now rewrite <- app_assoc. }
  rewrite W2. cbn [trace]. split; [reflexivity|]. split.
  - unfold close_calls. rewrite filter_app, length_app. simpl. lia.
  - exists k1, k2. unfold result. rewrite E1, E2.
    split; [reflexivity|]. split; [reflexivity|].
    intros c1 c2. unfold exec. rewrite K1, K2. cbn [snd]. rewrite K1, K2.
    cbn [snd hook_state trace].
    pose proof (filter_added (Content ty1 h1 m1 (Some i)) c1 (hook_state w))
      as Hd1.
    pose proof (filter_added (Content ty2 h2 m2 (Some i)) c2 (hook_state w))
      as Hd2.
    cbn [id_of] in Hd1, Hd2. rewrite Hd1, Hd2. split; reflexivity.
Qed.

Lemma same_render_adds_leave_first_open_witness :
  exists k1 k2,
    result (addNotification [] (Content error "E" (TextNode "boom") (Some "a")))
      initial = AwaitEnqueue k1 /\
    result (addNotification []
              (Content success "OK" (TextNode "done") (Some "a")))
      (exec (addNotification []
               (Content error "E" (TextNode "boom") (Some "a"))) initial)
      = AwaitEnqueue k2 /\
    forall c1 c2 : option CloseFn,
      hook_state
        (exec (k2 c2)
           (exec (k1 c1)
              (exec (addNotification []
                       (Content success "OK" (TextNode "done") (Some "a")))
                 (exec (addNotification []
                          (Content error "E" (TextNode "boom") (Some "a")))
                    initial))))
      = [mkEntry (Content success "OK" (TextNode "done") (Some "a")) c2] /\
      hook_state
        (exec (k1 c1)
           (exec (k2 c2)
              (exec (addNotification []
                       (Content success "OK" (TextNode "done") (Some "a")))
                 (exec (addNotification []
                          (Content error "E" (TextNode "boom") (Some "a")))
                    initial))))
      = [mkEntry (Content error "E" (TextNode "boom") (Some "a")) c1].
Proof.
  destruct (same_render_adds_leave_first_open [] error success "E" "OK"
              (TextNode "boom") (TextNode "done") "a" initial)
    as [_ [_ [k1 [k2 [E1 [E2 K]]]]]].
  - intros [e [[] _]].
  - exists k1, k2. split; [exact E1|]. split; [exact E2|].
    intros c1 c2. destruct (K c1 c2) as [H21 H12].
    rewrite H21, H12. split; reflexivity.
Defined.

(** *** Calls made on the toaster *)

Lemma closeAll_calls_app (t1 t2 : list Event) :
  closeAll_calls (t1 ++ t2) = closeAll_calls t1 + closeAll_calls t2.
Proof. unfold closeAll_calls. now rewrite filter_app, length_app. Qed.

Lemma enqueue_calls_app (t1 t2 : list Event) :
  enqueue_calls (t1 ++ t2) = enqueue_calls t1 + enqueue_calls t2.
Proof. unfold enqueue_calls. now rewrite filter_app, length_app. Qed.

Lemma close_calls_app (t1 t2 : list Event) :
  close_calls (t1 ++ t2) = close_calls t1 + close_calls t2.
Proof. unfold close_calls. now rewrite filter_app, length_app. Qed.

Lemma invoke_calls (f : option CloseFn) :
  closeAll_calls (invoke f) = 0 /\ enqueue_calls (invoke f) = 0 /\
  close_calls (invoke f) <= 1.
Proof. destruct f; simpl; repeat split; auto. Qed.

(** X10: what [addNotification] asks of the toaster.  Before the [await] a
    content notification causes exactly one [enqueue] and at most one call
    of a close callback, a status-code notification causes no call at
    all, and [closeAll] is never called; the continuation that runs when
    the enqueue resolves makes no call. *)
Theorem addNotification_toaster_calls :
  forall (cur : list Entry) (n : NotificationState) (w : World),
    let t' := trace (exec (addNotification cur n) w) in
    closeAll_calls t' = closeAll_calls (trace w) /\
    enqueue_calls t' =
      enqueue_calls (trace w) +
      match n with Content _ _ _ _ => 1 | StatusOnly _ => 0 end /\
    close_calls (trace w) <= close_calls t' <= S (close_calls (trace w)) /\
    (is_status (mkEntry n None) = true -> t' = trace w) /\
    forall k, result (addNotification cur n) w = AwaitEnqueue k ->
      forall c w2, trace (exec (k c) w2) = trace w2.
Proof.
  intros cur [ty h m i | ty] w; cbv zeta.
  - destruct (addNotification_content cur ty h m i w) as [k [E K]].
    unfold exec, result. rewrite E. cbn [fst snd trace].
    rewrite !closeAll_calls_app, !enqueue_calls_app, !close_calls_app.
    assert (H : closeAll_calls
                  (if truthy i && existsb (fun n => id_eqb (entry_id n) i) cur
                   then invoke (found_closeFn
                          (find (fun n => id_eqb (entry_id n) i) cur))
                   else []) = 0 /\
                enqueue_calls
                  (if truthy i && existsb (fun n => id_eqb (entry_id n) i) cur
                   then invoke (found_closeFn
                          (find (fun n => id_eqb (entry_id n) i) cur))
                   else []) = 0 /\
                close_calls
                  (if truthy i && existsb (fun n => id_eqb (entry_id n) i) cur
                   then invoke (found_closeFn
                          (find (fun n => id_eqb (entry_id n) i) cur))
                   else []) <= 1).
    { destruct (truthy i && existsb _ cur);
        [apply invoke_calls | simpl; repeat split; auto]. }
    destruct H as [H1 [H2 H3]]. rewrite H1, H2.
    change (closeAll_calls [Enqueue (toast_of ty h m)]) with 0.
    change (enqueue_calls [Enqueue (toast_of ty h m)]) with 1.
    change (close_calls [Enqueue (toast_of ty h m)]) with 0.
    repeat split; try lia.
    + intros Hs. discriminate Hs.
    + intros k' Hk c w2. injection Hk as <-. now rewrite K.
  - unfold exec, result. simpl. repeat split; try lia.
    intros k Hk. discriminate Hk.
Qed.

Lemma addNotification_toaster_calls_witness :
  trace (exec (addNotification [mkEntry (StatusOnly code401) None]
                 (StatusOnly code403))
           (mkWorld [mkEntry (StatusOnly code401) None] [CloseAll]))
  = [CloseAll].
Proof.
  apply (proj1 (proj2 (proj2 (proj2
           (addNotification_toaster_calls
              [mkEntry (StatusOnly code401) None] (StatusOnly code403)
              (mkWorld [mkEntry (StatusOnly code401) None] [CloseAll])))))).
  reflexivity.
Defined.

(** X11: [closeNotification] calls at most one close callback, never
    enqueues and never calls [closeAll]; the list it leaves is never
    longer than before. *)
Theorem closeNotification_toaster_calls :
  forall (cur : list Entry) (id : string) (w : World),
    let w' := exec (closeNotification cur id) w in
    closeAll_calls (trace w') = closeAll_calls (trace w) /\
    enqueue_calls (trace w') = enqueue_calls (trace w) /\
    close_calls (trace w) <= close_calls (trace w')
      <= S (close_calls (trace w)) /\
    length (hook_state w') <= length (hook_state w).
Proof.
  intros cur id w. cbv zeta. unfold exec, closeNotification.
  destruct (find _ cur) as [found|]; simpl; [|repeat split; lia].
  rewrite closeAll_calls_app, enqueue_calls_app, close_calls_app.
  destruct (invoke_calls (closeFn found)) as [H1 [H2 H3]].
  rewrite H1, H2. repeat split; try lia.
  apply List.filter_length_le.
Qed.

(** X12: the descriptor handed to the toaster.  The last call before the
    [await] is the [enqueue]; its descriptor has the severity and the
    headline of the notification, and carries a plain description exactly
    when the message is a string and a render callback exactly when it is
    not, never both and never neither. *)
Theorem enqueue_descriptor :
  forall (cur : list Entry) (ty : Severity) (h : string) (m : ReactNode)
         (i : option string) (w : World),
    exists t,
      last (trace (exec (addNotification cur (Content ty h m i)) w)) CloseAll
        = Enqueue t /\
      toast_type t = ty /\ label t = h /\
      (forall s, description t = Some s <-> m = TextNode s) /\
      (forall r, render t = Some r <-> r = m /\ forall s, m <> TextNode s) /\
      (description t = None <-> render t <> None).
Proof.
  intros cur ty h m i w. exists (toast_of ty h m).
  destruct (addNotification_content cur ty h m i w) as [k [E _]].
  unfold exec. rewrite E. cbn [snd trace]. rewrite last_last.
  split; [reflexivity|]. split; [reflexivity|]. split; [reflexivity|].
  destruct m as [s0 | key]; simpl; (split; [|split]).
  - intros s. split; congruence.
  - intros r. split; [discriminate|]. intros [_ H]. now contradiction (H s0).
  - split; [discriminate | congruence].
  - intros s. split; discriminate.
  - intros r. split.
    + intros H. injection H as <-. split; [reflexivity | discriminate].
    + intros [-> _]. reflexivity.
  - split; [discriminate | reflexivity].
Qed.

Lemma enqueue_descriptor_witness :
  exists t,
    last (trace (exec (addNotification []
                         (Content info "h" (ElementNode 0) None)) initial))
      CloseAll = Enqueue t /\
    description t = None /\ render t = Some (ElementNode 0).
Proof.
  destruct (enqueue_descriptor [] info "h" (ElementNode 0) None initial)
    as [t [Hlast [_ [_ [_ [Hr Hd]]]]]].
  exists t. split; [exact Hlast|].
  assert (R : render t = Some (ElementNode 0))
    by (apply Hr; split; [reflexivity | discriminate]).
  split; [|exact R]. apply Hd. rewrite R. discriminate.
Defined.

(** *** Further invariants of the list *)

(** X13: the state never holds more than one status-code entry, of either
    kind: the predicate is kept by every operation and holds in every
    reachable state. *)
Theorem at_most_one_status_entry :
  kept_by_all_operations (fun l => length (filter is_status l) <= 1) /\
  forall w, reachable w -> length (filter is_status (hook_state w)) <= 1.
Proof.
  assert (K : kept_by_all_operations
                (fun l => length (filter is_status l) <= 1)).
  { split; [|split; [|split]].
    - intros cur [ty h m i | ty] w Hw.
      + destruct (addNotification_content cur ty h m i w) as [k [E K]].
        unfold exec, result. rewrite E. simpl. split; [exact Hw|].
        intros k' Hk c w2 Hw2. injection Hk as <-.
        unfold exec. rewrite K. simpl. rewrite filter_app, length_app. simpl.
        pose proof (filter_length_le is_status
                      (fun n => negb (id_eqb (entry_id n) i)) (hook_state w2)).
        lia.
      + split; [|intros k Hk; discriminate Hk].
        unfold exec. simpl. rewrite filter_app.
        rewrite (filter_ext _ _ not_status_code_spec), filter_filter_negb.
        simpl. lia.
    - intros cur id w Hw. unfold exec, closeNotification.
      destruct (find _ cur); simpl; [|exact Hw].
      pose proof (filter_length_le is_status
                    (fun n => negb (id_eqb (entry_id n) (Some id)))
                    (hook_state w)).
      lia.
    - intros w _. simpl. lia.
    - intros w _. simpl. lia. }
  split; [exact K|].
  apply (reachable_invariant _ (Nat.le_0_l 1) K).
Qed.

Lemma at_most_one_status_entry_witness :
  length (filter is_status
            (hook_state
               (exec (addNotification [] (StatusOnly code403))
                  (exec (addNotification [] (StatusOnly code401)) initial))))
  <= 1.
Proof.
  apply (proj2 at_most_one_status_entry).
  apply reachable_step with (w := exec (addNotification [] (StatusOnly code401))
                                    initial); [|apply step_add].
  apply reachable_step with (w := initial); [|apply step_add].
  apply reachable_initial.
Defined.

Lemma anonymous_has_no_id (e : Entry) :
  is_anonymous_content e = true -> entry_id e = None.
Proof.
  unfold is_anonymous_content, entry_id.
  destruct (state e) as [ty h m [j|] | ty]; simpl; congruence.
Qed.

Lemma filter_anonymous_without_id (l : list Entry) :
  filter is_anonymous_content
    (filter (fun n => negb (id_eqb (entry_id n) None)) l) = [].
Proof.
  induction l as [|a l IH]; simpl; [reflexivity|].
  destruct (id_eqb (entry_id a) None) eqn:E; simpl; [exact IH|].
  destruct (is_anonymous_content a) eqn:Ea; [|exact IH].
  apply anonymous_has_no_id in Ea. rewrite Ea in E. discriminate E.
Qed.

(** X14: the state never holds more than one content entry without
    identifier: the predicate is kept by every operation and holds in
    every reachable state. *)
Theorem at_most_one_anonymous_entry :
  kept_by_all_operations
    (fun l => length (filter is_anonymous_content l) <= 1) /\
  forall w, reachable w ->
    length (filter is_anonymous_content (hook_state w)) <= 1.
Proof.
  assert (K : kept_by_all_operations
                (fun l => length (filter is_anonymous_content l) <= 1)).
  { split; [|split; [|split]].
    - intros cur [ty h m i | ty] w Hw.
      + destruct (addNotification_content cur ty h m i w) as [k [E K]].
        unfold exec, result. rewrite E. simpl. split; [exact Hw|].
        intros k' Hk c w2 Hw2. injection Hk as <-.
        unfold exec. rewrite K. simpl. rewrite filter_app, length_app.
        destruct i as [j|].
        * pose proof (filter_length_le is_anonymous_content
                        (fun n => negb (id_eqb (entry_id n) (Some j)))
                        (hook_state w2)).
          simpl. lia.
        * rewrite filter_anonymous_without_id. simpl. lia.
      + split; [|intros k Hk; discriminate Hk].
        unfold exec. simpl. rewrite filter_app, length_app.
        pose proof (filter_length_le is_anonymous_content not_status_code
                      (hook_state w)).
        simpl. lia.
    - intros cur id w Hw. unfold exec, closeNotification.
      destruct (find _ cur); simpl; [|exact Hw].
      pose proof (filter_length_le is_anonymous_content
                    (fun n => negb (id_eqb (entry_id n) (Some id)))
                    (hook_state w)).
      lia.
    - intros w _. simpl. lia.
    - intros w _. simpl. lia. }
  split; [exact K|].
  apply (reachable_invariant _ (Nat.le_0_l 1) K).
Qed.

Lemma reachable_settle cur n c w :
  reachable w -> reachable (exec (settle (addNotification cur n) c) w).
Proof.
  intros Hw. destruct n as [ty h m i | ty].
  - destruct (addNotification_content cur ty h m i w) as [k [E K]].
    assert (Es : exec (settle (addNotification cur (Content ty h m i)) c) w =
                 exec (k c) (exec (addNotification cur (Content ty h m i)) w)).
    { unfold exec. rewrite settle_content, E. cbn [snd]. rewrite K.
      reflexivity. }
    rewrite Es.
    apply reachable_step
      with (w := exec (addNotification cur (Content ty h m i)) w).
    + apply reachable_step with (w := w); [exact Hw | apply step_add].
    + apply step_resolve with (cur := cur) (n := Content ty h m i) (w0 := w).
      unfold result. now rewrite E.
  - apply reachable_step with (w := w); [exact Hw|].
    exact (step_add w cur (StatusOnly ty)).
Qed.

Lemma at_most_one_anonymous_entry_witness :
  hook_state
    (exec (settle (addNotification
                     [mkEntry (Content info "first" (TextNode "one") None)
                        (Some 1)]
                     (Content info "second" (TextNode "two") None)) (Some 2))
       (exec (settle (addNotification []
                        (Content info "first" (TextNode "one") None))
                (Some 1)) initial))
  = [mkEntry (Content info "second" (TextNode "two") None) (Some 2)] /\
  length (filter is_anonymous_content
            (hook_state
               (exec (settle (addNotification
                                [mkEntry (Content info "first" (TextNode "one")
                                            None) (Some 1)]
                                (Content info "second" (TextNode "two") None))
                        (Some 2))
                  (exec (settle (addNotification []
                                   (Content info "first" (TextNode "one") None))
                           (Some 1)) initial))))
  <= 1.
Proof.
  split; [reflexivity|].
  apply (proj2 at_most_one_anonymous_entry).
  apply reachable_settle. apply reachable_settle. apply reachable_initial.
Defined.

(** X15: a status-code entry never carries a close callback, so no
    operation can ever call one for it: the predicate is kept by every
    operation and holds in every reachable state. *)
Theorem status_entries_have_no_closeFn :
  kept_by_all_operations status_without_closeFn /\
  forall w, reachable w -> status_without_closeFn (hook_state w).
Proof.
  assert (K : kept_by_all_operations status_without_closeFn).
  { unfold status_without_closeFn. split; [|split; [|split]].
    - intros cur [ty h m i | ty] w Hw.
      + destruct (addNotification_content cur ty h m i w) as [k [E K]].
        unfold exec, result. rewrite E. simpl. split; [exact Hw|].
        intros k' Hk c w2 Hw2. injection Hk as <-.
        unfold exec. rewrite K. simpl. intros e He Hs.
        apply in_app_or in He as [He | [<- | []]].
        * apply filter_In in He as [He _]. now apply Hw2.
        * discriminate Hs.
      + split; [|intros k Hk; discriminate Hk].
        unfold exec. simpl. intros e He Hs.
        apply in_app_or in He as [He | [<- | []]]; [|reflexivity].
        apply filter_In in He as [He _]. now apply Hw.
    - intros cur id w Hw. unfold exec, closeNotification.
      destruct (find _ cur) as [found|]; simpl; [|exact Hw].
      intros e He Hs. apply filter_In in He as [He _]. now apply Hw.
    - intros w _ e [].
    - intros w _ e []. }
  split; [exact K|].
  apply (reachable_invariant status_without_closeFn); [|exact K].
  intros e [].
Qed.

Lemma status_entries_have_no_closeFn_witness :
  status_without_closeFn
    (hook_state (exec (addNotification [] (StatusOnly code401)) initial)).
Proof.
  apply (proj2 status_entries_have_no_closeFn).
  apply reachable_step with (w := initial); [|apply step_add].
  apply reachable_initial.
Defined.

(** ** The demo component *)

(** The toast a click asks for. *)
Lemma settled_click_eq (c : option CloseFn) (a : AppWorld) :
  settled_click c a =
    mkApp
      (mkWorld
         (filter (fun n => negb (id_eqb (entry_id n) None))
            (hook_state (provider a))
            ++ [mkEntry (click_notification (counter_cell a)) c])
         (trace (provider a)
            ++ [Enqueue (toast_of info "KolButton clicked"
                           (TextNode (String.append "KolButton "
                              (String.append (decimal (counter_cell a))
                                 " clicked"))))]))
      (plus_one (counter_cell a)).
Proof. reflexivity. Qed.

Lemma settled_clicks_snoc cs c a :
  settled_clicks (cs ++ [c]) a = settled_click c (settled_clicks cs a).
Proof. unfold settled_clicks. now rewrite fold_left_app. Qed.

Lemma plus_one_exact (counter : N) :
  (counter < 2 ^ 53)%N -> plus_one counter = (counter + 1)%N.
Proof.
  intros H. unfold plus_one. now apply N.ltb_lt in H as ->.
Qed.

Lemma settled_clicks_general (cs : list (option CloseFn)) (a : AppWorld) :
  (counter_cell a + N.of_nat (length cs) <= 2 ^ 53)%N ->
  counter_cell (settled_clicks cs a) =
    (counter_cell a + N.of_nat (length cs))%N /\
  trace (provider (settled_clicks cs a)) =
    trace (provider a) ++
    map (fun j => Enqueue (toast_of info "KolButton clicked"
                    (TextNode (String.append "KolButton "
                       (String.append (decimal (counter_cell a + N.of_nat j))
                          " clicked")))))
      (seq 0 (length cs)) /\
  filter (fun n => negb (id_eqb (entry_id n) None))
    (hook_state (provider (settled_clicks cs a))) =
  filter (fun n => negb (id_eqb (entry_id n) None)) (hook_state (provider a)) /\
  forall cs' c, cs = cs' ++ [c] ->
    hook_state (provider (settled_clicks cs a)) =
      filter (fun n => negb (id_eqb (entry_id n) None)) (hook_state (provider a))
        ++ [mkEntry (click_notification
                       (counter_cell a + N.of_nat (length cs'))) c].
Proof.
  induction cs as [|c cs IH] using rev_ind; intros Hle.
  - simpl. rewrite N.add_0_r, app_nil_r. repeat split.
    intros cs' c E. now destruct cs'.
  - rewrite length_app in Hle. simpl in Hle.
    destruct IH as [Hc [Ht [Hf _]]]; [lia|].
    rewrite settled_clicks_snoc, settled_click_eq.
    cbn [provider counter_cell hook_state trace].
    rewrite Hc, Ht, Hf. split; [|split; [|split]].
    + rewrite plus_one_exact by lia. rewrite length_app. simpl. lia.
    + rewrite length_app. simpl. rewrite seq_app, map_app. simpl.
      now rewrite <- app_assoc.
    + apply (filter_added (click_notification _) c).
    + intros cs' c' E. apply app_inj_tail in E as [<- <-]. reflexivity.
Qed.

Lemma only_enqueues {J : Type} (f : J -> Toast) (js : list J) :
  enqueue_calls (map (fun j => Enqueue (f j)) js) = length js /\
  close_calls (map (fun j => Enqueue (f j)) js) = 0 /\
  closeAll_calls (map (fun j => Enqueue (f j)) js) = 0.
Proof.
  unfold enqueue_calls, close_calls, closeAll_calls.
  induction js as [|j js [H1 [H2 H3]]]; simpl; [repeat split|].
  now rewrite H1, H2, H3.
Qed.

(** X16: the button of the demo is clicked [n] times after mounting
    ([n] at most 2^53), each enqueue answered before the next click.  The
    counter then shows [n]; the toaster has been asked for exactly [n]
    toasts, headed "KolButton clicked" and numbered 0 to [n-1] in click
    order; no close callback and no [closeAll] was ever called. *)
Theorem clicks_count_and_enqueue :
  forall cs : list (option CloseFn),
    (N.of_nat (length cs) <= 2 ^ 53)%N ->
    let a := settled_clicks cs mounted in
    counter_cell a = N.of_nat (length cs) /\
    trace (provider a) =
      map (fun j => Enqueue
                      {| toast_type := info;
                         label := "KolButton clicked";
                         description :=
                           Some (String.append "KolButton "
                                   (String.append (decimal (N.of_nat j))
                                      " clicked"));
                         render := None |})
        (seq 0 (length cs)) /\
    enqueue_calls (trace (provider a)) = length cs /\
    close_calls (trace (provider a)) = 0 /\
    closeAll_calls (trace (provider a)) = 0.
Proof.
  intros cs Hle. cbv zeta.
  destruct (settled_clicks_general cs mounted) as [Hc [Ht _]]; [exact Hle|].
  split; [exact Hc|].
  assert (T : trace (provider (settled_clicks cs mounted)) =
              map (fun j => Enqueue
                      {| toast_type := info;
                         label := "KolButton clicked";
                         description :=
                           Some (String.append "KolButton "
                                   (String.append (decimal (N.of_nat j))
                                      " clicked"));
                         render := None |})
                (seq 0 (length cs))) by (rewrite Ht; reflexivity).
  rewrite T. split; [reflexivity|].
  destruct (only_enqueues
              (fun j => {| toast_type := info;
                           label := "KolButton clicked";
                           description :=
                             Some (String.append "KolButton "
                                     (String.append (decimal (N.of_nat j))
                                        " clicked"));
                           render := None |})
              (seq 0 (length cs))) as [H1 [H2 H3]].
  rewrite length_seq in H1. now rewrite H1, H2, H3.
Qed.

Lemma clicks_count_and_enqueue_witness :
  counter_cell (settled_clicks [Some 1; Some 2] mounted) = 2%N /\
  enqueue_calls (trace (provider (settled_clicks [Some 1; Some 2] mounted))) = 2.
Proof.
  assert (H : (N.of_nat (length [Some 1; Some 2]) <= 2 ^ 53)%N)
    by (vm_compute; discriminate).
  split.
  - exact (proj1 (clicks_count_and_enqueue [Some 1; Some 2] H)).
  - exact (proj1 (proj2 (proj2 (clicks_count_and_enqueue [Some 1; Some 2] H)))).
Defined.

(** X17: however often the button was clicked (at most 2^53 times, each
    enqueue answered before the next click), the list of the provider
    holds one entry only, the notification of the last click with the
    callback returned for it: the entries of all earlier clicks were
    dropped from the list, and by X16 none of their toasts was closed. *)
Theorem clicks_keep_latest_only :
  forall cs : list (option CloseFn),
    (N.of_nat (length cs) <= 2 ^ 53)%N ->
    let l := hook_state (provider (settled_clicks cs mounted)) in
    length l = Nat.min 1 (length cs) /\
    forall cs' c, cs = cs' ++ [c] ->
      l = [mkEntry (Content info "KolButton clicked"
                      (TextNode (String.append "KolButton "
                         (String.append (decimal (N.of_nat (length cs')))
                            " clicked")))
                      None) c].
Proof.
  intros cs Hle. cbv zeta.
  destruct (settled_clicks_general cs mounted) as [_ [_ [_ Hl]]]; [exact Hle|].
  assert (Hl' : forall cs' c, cs = cs' ++ [c] ->
            hook_state (provider (settled_clicks cs mounted)) =
              [mkEntry (click_notification (N.of_nat (length cs'))) c])
    by (intros cs' c E; now rewrite (Hl cs' c E)).
  split; [|exact Hl'].
  destruct cs as [|c1 cs1]; [reflexivity|].
  destruct (exists_last (l := c1 :: cs1)) as [cs' [c' E]]; [discriminate|].
  now rewrite (Hl' cs' c' E).
Qed.

Lemma clicks_keep_latest_only_witness :
  hook_state (provider (settled_clicks [Some 1; Some 2] mounted)) =
    [mkEntry (Content info "KolButton clicked"
                (TextNode "KolButton 1 clicked") None) (Some 2)].
Proof.
  assert (H : (N.of_nat (length [Some 1; Some 2]) <= 2 ^ 53)%N)
    by (vm_compute; discriminate).
  exact (proj2 (clicks_keep_latest_only [Some 1; Some 2] H) [Some 1] (Some 2)
           eq_refl).
Defined.

(** ** Sizes under unique identifiers *)

Lemma filter_id_removes_one (i : string) (l : list Entry) :
  unique_ids l -> occurs (Some i) l ->
  S (length (filter (fun n => negb (id_eqb (entry_id n) (Some i))) l)) =
    length l.
Proof.
  unfold unique_ids. induction l as [|a l IH]; intros Hnd Hocc.
  - destruct Hocc as [e [[] _]].
  - simpl in *. destruct (id_eqb (entry_id a) (Some i)) eqn:Ea; simpl.
    + apply id_eqb_eq in Ea. rewrite Ea in Hnd.
      inversion Hnd as [|? ? Hnin _]; subst.
      rewrite with_id_not_occurs; [reflexivity|].
      intros Ho. apply Hnin. now apply present_ids_In.
    + f_equal. apply IH.
      * destruct (entry_id a); [now inversion Hnd | exact Hnd].
      * destruct Hocc as [e [[<- | He] Hid]]; [|now exists e].
        apply id_eqb_neq in Ea. contradiction.
Qed.

(** X18: when identifiers are unique in the list and the identifier of the
    new content notification already occurs in it at the time the enqueue
    resolves, the add replaces: the list has as many entries as before. *)
Theorem addNotification_existing_id_keeps_length :
  forall (cur : list Entry) (ty : Severity) (h : string) (m : ReactNode)
         (i : string) (w : World),
    exists k,
      result (addNotification cur (Content ty h m (Some i))) w =
        AwaitEnqueue k /\
      forall (c : option CloseFn) (w2 : World),
        unique_ids (hook_state w2) ->
        occurs (Some i) (hook_state w2) ->
        length (hook_state (exec (k c) w2)) = length (hook_state w2).
Proof.
  intros cur ty h m i w.
  destruct (addNotification_content cur ty h m (Some i) w) as [k [E K]].
  exists k. unfold result. rewrite E. split; [reflexivity|].
  intros c w2 Hu Ho. unfold exec. rewrite K. simpl.
  rewrite length_app. simpl.
  rewrite <- (filter_id_removes_one i (hook_state w2) Hu Ho). lia.
Qed.

Lemma addNotification_existing_id_keeps_length_witness :
  exists k,
    result (addNotification []
              (Content success "OK" (TextNode "done") (Some "a"))) initial
      = AwaitEnqueue k /\
    length
      (hook_state
         (exec (k (Some 2))
            (mkWorld
               [mkEntry (Content error "E" (TextNode "boom") (Some "a"))
                  (Some 1)] []))) = 1.
Proof.
  destruct (addNotification_existing_id_keeps_length [] success "OK"
              (TextNode "done") "a" initial) as [k [E K]].
  exists k. split; [exact E|].
  apply (K (Some 2)
           (mkWorld
              [mkEntry (Content error "E" (TextNode "boom") (Some "a"))
                 (Some 1)] [])).
  - unfold unique_ids. simpl. repeat constructor. intros [].
  - eexists. split; [now left | reflexivity].
Defined.

(** X19: when identifiers are unique in the list, [closeNotification]
    called from the up-to-date render with an identifier that occurs
    removes exactly one entry, and the callback it calls is the one stored
    on every entry with that identifier, since there is only one. *)
Theorem closeNotification_removes_one :
  forall (id : string) (w : World),
    unique_ids (hook_state w) ->
    occurs (Some id) (hook_state w) ->
    let w' := exec (closeNotification (hook_state w) id) w in
    S (length (hook_state w')) = length (hook_state w) /\
    forall e, In e (hook_state w) -> entry_id e = Some id ->
      trace w' = trace w ++ invoke (closeFn e).
Proof.
  intros id w Hu Ho. cbv zeta. unfold exec, closeNotification.
  destruct (find (fun n => id_eqb (entry_id n) (Some id)) (hook_state w))
    as [found|] eqn:Hfind;
    [|apply find_none_not_occurs in Hfind; contradiction].
  simpl. split; [now apply filter_id_removes_one|].
  intros e He Hid.
  rewrite (find_unique (hook_state w) (Some id) found e Hu Hfind He Hid);
    [reflexivity | discriminate].
Qed.

Lemma closeNotification_removes_one_witness :
  S (length
       (hook_state
          (exec (closeNotification
                   [mkEntry (Content info "h" (TextNode "m") (Some "a"))
                      (Some 1);
                    mkEntry (StatusOnly code401) None] "a")
             (mkWorld
                [mkEntry (Content info "h" (TextNode "m") (Some "a")) (Some 1);
                 mkEntry (StatusOnly code401) None] [])))) = 2.
Proof.
  refine (proj1 (closeNotification_removes_one "a"
            (mkWorld
               [mkEntry (Content info "h" (TextNode "m") (Some "a")) (Some 1);
                mkEntry (StatusOnly code401) None] []) _ _)).
  - unfold unique_ids. simpl. repeat constructor. intros [].
  - eexists. split; [now left | reflexivity].
Defined.
